(** * fanova/fanova.py: the marginal-variance decomposition engine

    A shallow embedding of the class [fANOVA] of [fanova/fanova.py] and the
    properties that its specification states about it.

    Conventions of the embedding.
    - Python floats are modelled by exact rationals ([Q]).  The concrete
      inputs used below are small dyadic numbers, on which floating point
      arithmetic is exact as well.
    - [np.nan] in a query vector is [None] ("marginalise this dimension").
    - The module is Python 2 code ([dict.has_key]); the Python expression
      [(1/2)] of the grid builder is [0] under Python 2's integer division
      and one half under true division, so the grid builder takes the value
      of that expression as the argument [half].
    - Exceptions are values of [exn]; a method is a function from the world
      (the object's attributes and the log of calls made to the forest) to
      an outcome and a new world.
    - pyrfr, numpy's reductions and ConfigSpace are external: what the class
      uses of them is gathered in the records [Forest] and [Lib]. *)

From Stdlib Require Import String DecimalString.
From Stdlib Require Import List ZArith QArith Qminmax Lia Bool Permutation Sorted.
Import ListNotations.

Local Open Scope Z_scope.

(** ** Python values and exceptions *)

Inductive exn : Type :=
| RuntimeError (msg : string)
| IndexError
| KeyError
| AttributeError (attr : string)
| NameError (name : string)
| UnboundLocalError (name : string)
| ValueError.

Definition result (A : Type) : Type := (exn + A)%type.

Definition of_option {A : Type} (e : exn) (o : option A) : result A :=
  match o with
  | Some a => inr a
  | None => inl e
  end.

(** [l[i]] for a Python sequence: negative indices count from the end. *)
Definition py_index {A : Type} (l : list A) (i : Z) : option A :=
  let n := Z.of_nat (length l) in
  if 0 <=? i then nth_error l (Z.to_nat i)
  else if - n <=? i then nth_error l (Z.to_nat (n + i))
  else None.

Fixpoint set_nth {A : Type} (l : list A) (n : nat) (v : A) : option (list A) :=
  match l, n with
  | [], _ => None
  | _ :: t, O => Some (v :: t)
  | h :: t, S n' => option_map (cons h) (set_nth t n' v)
  end.

(** [l[i] = v] on an array of fixed length. *)
Definition py_setitem {A : Type} (l : list A) (i : Z) (v : A) : option (list A) :=
  let n := Z.of_nat (length l) in
  if 0 <=? i then set_nth l (Z.to_nat i) v
  else if - n <=? i then set_nth l (Z.to_nat (n + i)) v
  else None.

(** [range(a, a + n)] *)
Fixpoint py_range (a : Z) (n : nat) : list Z :=
  match n with
  | O => []
  | S n' => a :: py_range (a + 1) n'
  end.

(** [l[:n]] *)
Definition py_slice_to {A : Type} (l : list A) (n : Z) : list A :=
  if 0 <=? n then firstn (Z.to_nat n) l
  else firstn (Z.to_nat (Z.of_nat (length l) + n)) l.

(** [itertools.combinations(l, k)]: the [k]-element subsequences of [l], in
    the order of [l]. *)
Fixpoint combinations {A : Type} (l : list A) (k : nat) : list (list A) :=
  match k with
  | O => [[]]
  | S k' =>
      match l with
      | [] => []
      | x :: t => map (cons x) (combinations t k') ++ combinations t (S k')
      end
  end.

(** [itertools.product] applied to the lists of [ls] *)
Fixpoint product {A : Type} (ls : list (list A)) : list (list A) :=
  match ls with
  | [] => [[]]
  | l :: rest => flat_map (fun x => map (cons x) (product rest)) l
  end.

(** Elementwise operation on two numpy arrays of the same length. *)
Fixpoint np_zip (f : Q -> Q -> Q) (xs ys : list Q) : list Q :=
  match xs, ys with
  | x :: xs', y :: ys' => f x y :: np_zip f xs' ys'
  | _, _ => []
  end.

(** [np.ones(n)] *)
Definition np_ones (n : nat) : list Q := repeat 1%Q n.

(** [np.prod(np.array(l))] *)
Definition np_prod (l : list Q) : Q := fold_left Qmult l 1%Q.

(** ** The split grid of one tree (fANOVA.__init__, lines 144-173) *)

Module Grid.

(** [val_mins[i]] is [None] for a categorical dimension. *)
Definition bounds := list (option Q).

(** Lines 146-153: the thresholds of every continuous dimension between the
    dimension's bounds.  The list built here is called [var_splits]. *)
Fixpoint augment_from (val_mins val_maxs : bounds) (tree_split_values : list (list Q))
    (i : Z) (idx : list Z) (var_splits : list (list Q)) : result (list (list Q)) :=
  match idx with
  | [] => inr var_splits
  | _ :: idx' =>
      match py_index val_mins i with
      | None => inl IndexError
      | Some None =>
          match py_index tree_split_values i with
          | None => inl IndexError
          | Some raw => augment_from val_mins val_maxs tree_split_values (i + 1) idx'
                          (var_splits ++ [raw])
          end
      | Some (Some lo) =>
          match py_index tree_split_values i, py_index val_maxs i with
          | Some raw, Some (Some hi) =>
              augment_from val_mins val_maxs tree_split_values (i + 1) idx'
                (var_splits ++ [[lo] ++ raw ++ [hi]])
          | _, _ => inl IndexError
          end
      end
  end.

Definition augment (val_mins val_maxs : bounds) (tree_split_values : list (list Q))
  : result (list (list Q)) :=
  augment_from val_mins val_maxs tree_split_values 0
    (py_range 0 (length tree_split_values)) [].

(** Lines 166-167 for one dimension: [var_splits[1:]] is [tl] and
    [var_splits[:-1]] is [removelast]. *)
Definition midpoint_p (half : Q) (var_splits : list Q) : list Q :=
  map (Qmult half) (np_zip Qplus (tl var_splits) (removelast var_splits)).

Definition size (var_splits : list Q) : list Q :=
  np_zip Qminus (tl var_splits) (removelast var_splits).

(** Lines 156-169.  The loop is [for i, var_splits in
    enumerate(tree_split_values)]: its variable [var_splits] is bound to the
    elements of [tree_split_values], the raw thresholds, and hides the list
    of lines 146-153. *)
Fixpoint cells_from (half : Q) (val_mins : bounds) (i : Z)
    (tree_split_values : list (list Q)) (midpoints sizes : list (list Q))
  : result (list (list Q) * list (list Q)) :=
  match tree_split_values with
  | [] => inr (midpoints, sizes)
  | var_splits :: rest =>
      match py_index val_mins i with
      | None => inl IndexError
      | Some None =>
          cells_from half val_mins (i + 1) rest
            (midpoints ++ [var_splits]) (sizes ++ [np_ones (length var_splits)])
      | Some (Some _) =>
          cells_from half val_mins (i + 1) rest
            (midpoints ++ [midpoint_p half var_splits]) (sizes ++ [size var_splits])
      end
  end.

(** The body of the loop over the trees: the midpoints and the sizes of one
    tree. *)
Definition tree_grid (half : Q) (val_mins val_maxs : bounds)
    (tree_split_values : list (list Q)) : result (list (list Q) * list (list Q)) :=
  match augment val_mins val_maxs tree_split_values with
  | inl e => inl e
  | inr _ => cells_from half val_mins 0 tree_split_values [] []
  end.

(** What sections 3 and 4.1 of the specification ask for a continuous
    dimension: midpoints and widths of the thresholds between the bounds. *)
Definition spec_midpoints (lo hi : Q) (raw : list Q) : list Q :=
  let aug := [lo] ++ raw ++ [hi] in
  np_zip (fun a b => (a + b) / 2)%Q (removelast aug) (tl aug).

Definition spec_sizes (lo hi : Q) (raw : list Q) : list Q :=
  let aug := [lo] ++ raw ++ [hi] in
  np_zip (fun a b => b - a)%Q (removelast aug) (tl aug).

End Grid.

(** ** The collaborators *)

(** The trained forest (pyrfr): the two operations the class calls on it. *)
Record Forest : Type := {
  all_split_values : list Z -> list (list (list Q));
  marginal_mean_prediction : list (option Q) -> list Q
}.

(** The two kinds of ConfigSpace hyperparameters the module imports. *)
Inductive Hyperparameter : Type :=
| CategoricalHyperparameter (name : string) (choices : list string)
| UniformFloatHyperparameter (name : string) (lower upper : Q).

Definition hp_name (hp : Hyperparameter) : string :=
  match hp with
  | CategoricalHyperparameter n _ => n
  | UniformFloatHyperparameter n _ _ => n
  end.

(** [forest.options] as the constructor sets them. *)
Record ForestOptions : Type := {
  opt_num_trees : Z;
  opt_seed : Z;
  opt_do_bootstrapping : bool;
  opt_num_data_points_per_tree : Z;
  opt_max_features : Z
}.

(** What the class uses of pyrfr and numpy without the source saying what it
    computes. *)
Record Lib : Type := {
  (** [reg.fanova_forest()], its options set, then [forest.fit(data, rng)] *)
  fit : ForestOptions -> list (list Q * Q) -> Forest;
  (** [np.random.randint(n)] *)
  randint : Z -> Z;
  (** [pyrfr.util.weighted_running_stats().push(x, w).variance_unbiased_importance()],
      on a fresh statistic *)
  push_variance : Q -> Q -> result Q;
  np_mean : list Q -> Q;
  np_std : list Q -> Q
}.

(** ** The object and the world *)

(** One value of [self.param_dic['parameters']]: a dict that may hold the
    keys ['Name'] and ['MarginalVarianceContribution']. *)
Record entry : Type := {
  Name : option string;
  MarginalVarianceContribution : option Q
}.

(** [self.param_dic['parameters']], an OrderedDict keyed by tuples of
    dimensions. *)
Definition memo : Type := list (list Z * entry).

Definition key_eqb (a b : list Z) : bool :=
  if list_eq_dec Z.eq_dec a b then true else false.

Fixpoint lookup (k : list Z) (m : memo) : option entry :=
  match m with
  | [] => None
  | (k', e) :: m' => if key_eqb k k' then Some e else lookup k m'
  end.

Definition has_key (m : memo) (k : list Z) : bool :=
  match lookup k m with Some _ => true | None => false end.

(** [m[k] = e]: an existing key keeps its place, a new one goes last. *)
Fixpoint store (k : list Z) (e : entry) (m : memo) : memo :=
  match m with
  | [] => [(k, e)]
  | (k', e') :: m' => if key_eqb k k' then (k', e) :: m' else (k', e') :: store k e m'
  end.

(** The attributes the class assigns; [None] is an attribute not yet set. *)
Record fANOVA : Type := {
  num_trees : option Z;
  cs : option (list Hyperparameter);
  cs_params : option (list Hyperparameter);
  the_forest : option Forest;
  param_dic : option memo;
  all_midpoints : option (list (list (list Q)));
  all_sizes : option (list (list (list Q)))
}.

(** [object.__new__]: no attribute set. *)
Definition blank : fANOVA :=
  {| num_trees := None; cs := None; cs_params := None; the_forest := None;
     param_dic := None; all_midpoints := None; all_sizes := None |}.

(** The object, the query vectors passed so far to
    [marginal_mean_prediction], and the forest trainings made so far. *)
Record World : Type := {
  self : fANOVA;
  queries : list (list (option Q));
  trainings : list (ForestOptions * list (list Q * Q))
}.

(** ** Statements: state and exceptions *)

Definition M (A : Type) : Type := World -> result A * World.

Definition ret {A : Type} (a : A) : M A := fun w => (inr a, w).

Definition raise {A : Type} (e : exn) : M A := fun w => (inl e, w).

Definition bind {A B : Type} (m : M A) (f : A -> M B) : M B :=
  fun w =>
    match m w with
    | (inl e, w') => (inl e, w')
    | (inr a, w') => f a w'
    end.

Declare Scope py_scope.
Delimit Scope py_scope with py.
Notation "x <- m ;; k" := (bind m (fun x => k))
  (at level 61, m at next level, right associativity) : py_scope.
Notation "m ;;; k" := (bind m (fun _ => k))
  (at level 61, right associativity) : py_scope.
Local Open Scope py_scope.

Definition lift {A : Type} (r : result A) : M A := fun w => (r, w).

(** [self.attr] *)
Definition getattr {A : Type} (attr : string) (f : fANOVA -> option A) : M A :=
  fun w => (of_option (AttributeError attr) (f (self w)), w).

(** [self.attr] for a name that the class never assigns. *)
Definition getattr_missing {A : Type} (attr : string) : M A :=
  raise (AttributeError attr).

Definition setattr (f : fANOVA -> fANOVA) : M unit :=
  fun w => (inr tt, {| self := f (self w); queries := queries w; trainings := trainings w |}).

(** [l[i]] *)
Definition index {A : Type} (l : list A) (i : Z) : M A :=
  lift (of_option IndexError (py_index l i)).

(** [for x in xs: s = body(s, x)] *)
Fixpoint foldM {A S : Type} (body : S -> A -> M S) (xs : list A) (s : S) : M S :=
  match xs with
  | [] => ret s
  | x :: xs' => s' <- body s x ;; foldM body xs' s'
  end.

(** A loop body either falls through to the next iteration or returns from
    the function. *)
Inductive flow (S R : Type) : Type :=
| Next (s : S)
| Return (r : R).
Arguments Next {S R} s.
Arguments Return {S R} r.

(** [for x in xs: body  else: orelse], where [body] may return. *)
Fixpoint for_else {A S R : Type} (body : S -> A -> M (flow S R)) (orelse : S -> M R)
    (xs : list A) (s : S) : M R :=
  match xs with
  | [] => orelse s
  | x :: xs' =>
      f <- body s x ;;
      match f with
      | Next s' => for_else body orelse xs' s'
      | Return r => ret r
      end
  end.

(** [self.the_forest.marginal_mean_prediction(sample)] *)
Definition predict (sample : list (option Q)) : M (list Q) :=
  forest <- getattr "the_forest" the_forest ;;
  fun w => (inr (marginal_mean_prediction forest sample),
            {| self := self w; queries := queries w ++ [sample];
               trainings := trainings w |}).

Definition set_param_dic (m : memo) (o : fANOVA) : fANOVA :=
  {| num_trees := num_trees o; cs := cs o; cs_params := cs_params o;
     the_forest := the_forest o; param_dic := Some m;
     all_midpoints := all_midpoints o; all_sizes := all_sizes o |}.

(** [self.param_dic['parameters'][k] = {}] *)
Definition memo_new (k : list Z) : M unit :=
  m <- getattr "param_dic" param_dic ;;
  setattr (set_param_dic (store k {| Name := None; MarginalVarianceContribution := None |} m)).

(** [self.param_dic['parameters'][k]['Name'] = n] *)
Definition memo_set_Name (k : list Z) (n : string) : M unit :=
  m <- getattr "param_dic" param_dic ;;
  e <- lift (of_option KeyError (lookup k m)) ;;
  setattr (set_param_dic
    (store k {| Name := Some n;
                MarginalVarianceContribution := MarginalVarianceContribution e |} m)).

(** [self.param_dic['parameters'][k]['MarginalVarianceContribution'] = v] *)
Definition memo_set_MVC (k : list Z) (v : Q) : M unit :=
  m <- getattr "param_dic" param_dic ;;
  e <- lift (of_option KeyError (lookup k m)) ;;
  setattr (set_param_dic
    (store k {| Name := Name e; MarginalVarianceContribution := Some v |} m)).

(** [self.param_dic['parameters'][k]['MarginalVarianceContribution']] *)
Definition memo_get_MVC (k : list Z) : M Q :=
  m <- getattr "param_dic" param_dic ;;
  e <- lift (of_option KeyError (lookup k m)) ;;
  lift (of_option KeyError (MarginalVarianceContribution e)).

(** ** fANOVA.get_marginal (lines 176-264) *)

(** The local variables that live across the iterations of the loop over
    the grid points of one tree. *)
Record point_state : Type := {
  sample : list (option Q);
  weightedSum : Q;
  weightedSumOfSquares : Q;
  prev_FraqExp : Q;
  totalFractionsExplained : option Q
}.

(** Lines 237-238: one grid cell added to the two running sums; the weight
    of the cell is the product of its interval sizes. *)
Definition accumulate (sums : Q * Q) (marg : Q) (cell : list Q) : Q * Q :=
  (fst sums + marg * np_prod cell, snd sums + (marg * marg) * np_prod cell)%Q.

(** Lines 230 and 239: [weightedSumOfSquares - np.power(weightedSum, 2)]. *)
Definition raw_contribution (sums : Q * Q) : Q :=
  (snd sums - fst sums * fst sums)%Q.

Definition last_error {A : Type} (l : list A) : option A :=
  match rev l with
  | x :: _ => Some x
  | [] => None
  end.

Section Get_marginal.

Variable lib : Lib.

(** Lines 207-210: the midpoints and the sizes of the chosen dimensions. *)
Definition gather (tree : Z) (dimensions : list Z)
  : M (list (list Q) * list (list Q) * list Z) :=
  foldM (fun acc dim =>
           let '(combi_midpoints, sizes, dim_helper) := acc in
           mids <- getattr "all_midpoints" all_midpoints ;;
           mt <- index mids tree ;;
           md <- index mt dim ;;
           szs <- getattr "all_sizes" all_sizes ;;
           st <- index szs tree ;;
           sd <- index st dim ;;
           ret (combi_midpoints ++ [md], sizes ++ [sd], dim_helper ++ [dim]))
        dimensions ([], [], []).

(** Lines 219-220: [sample[dim_helper[j]] = points[j]]. *)
Definition fix_sample (dim_helper : list Z) (points : list Q)
    (sample : list (option Q)) : M (list (option Q)) :=
  foldM (fun sample j =>
           d <- index dim_helper j ;;
           p <- index points j ;;
           lift (of_option IndexError (py_setitem sample d (Some p))))
        (py_range 0 (length points)) sample.

(** Lines 229-234: a subset of one dimension.  [dim] is the variable left
    by the loop of line 207. *)
Definition single (dimensions : list Z) (tree dim i : Z) (marg : Q)
    (sample' : list (option Q)) (st : point_state) : M point_state :=
  szs <- getattr "all_sizes" all_sizes ;;
  szt <- index szs tree ;;
  szd <- index szt dim ;;
  w <- index szd i ;;
  v <- lift (push_variance lib marg w) ;;
  let wss := (weightedSumOfSquares st + v)%Q in
  let thisMarginalVarianceContribution := raw_contribution (weightedSum st, wss) in
  memo_new dimensions ;;;
  params <- getattr "cs_params" cs_params ;;
  hp <- index params dim ;;
  memo_set_Name dimensions (hp_name hp) ;;;
  memo_set_MVC dimensions thisMarginalVarianceContribution ;;;
  ret {| sample := sample'; weightedSum := weightedSum st;
         weightedSumOfSquares := wss; prev_FraqExp := prev_FraqExp st;
         totalFractionsExplained := totalFractionsExplained st |}.

(** Lines 237-261: a subset of two or more dimensions.  The name
    [thisTreeTotalVar] of line 257 is bound nowhere in the module. *)
Definition several (dim_list dimensions : list Z) (k : nat) (i : Z)
    (points : list Q) (dim_helper : list Z) (interval_sizes : list (list Q))
    (marg : Q) (sample' : list (option Q)) (st : point_state) : M point_state :=
  cell <- index interval_sizes i ;;
  let sums := accumulate (weightedSum st, weightedSumOfSquares st) marg cell in
  let thisMarginalVarianceContribution := raw_contribution sums in
  singleVarianceContributions <-
    (if Nat.ltb 2 (length dimensions) then
       let singleVar_dims := combinations dim_list (k - 1) in
       foldM (fun acc i =>
                key <- index singleVar_dims i ;;
                c <- memo_get_MVC key ;;
                ret (acc ++ [c]))
             (py_range 0 (length points)) []
     else
       foldM (fun acc i =>
                d <- index dim_helper i ;;
                c <- memo_get_MVC [d] ;;
                ret (acc ++ [c]))
             (py_range 0 (length points)) []) ;;
  let thisMarginalVarianceContribution :=
    fold_left Qminus singleVarianceContributions thisMarginalVarianceContribution in
  let params := dim_helper in
  n <- getattr "num_trees" num_trees ;;
  thisTreeTotalVar <- raise (NameError "thisTreeTotalVar") ;;
  let fraq := (inject_Z n * (thisMarginalVarianceContribution / thisTreeTotalVar * 100))%Q in
  let total := (prev_FraqExp st + 1 / fraq)%Q in
  memo_new params ;;;
  memo_set_MVC params total ;;;
  ret {| sample := sample'; weightedSum := fst sums;
         weightedSumOfSquares := snd sums; prev_FraqExp := fraq;
         totalFractionsExplained := Some total |}.

(** Lines 217-261: the body of the loop over the grid points. *)
Definition point (dim_list dimensions : list Z) (k : nat) (tree : Z)
    (dim_helper : list Z) (interval_sizes : list (list Q))
    (st : point_state) (ip : Z * list Q) : M point_state :=
  let (i, points) := ip in
  sample' <- fix_sample dim_helper points (sample st) ;;
  pred <- predict sample' ;;
  marg <- index pred tree ;;
  if Nat.eqb (length dimensions) 1 then
    dim <- lift (of_option (UnboundLocalError "dim") (last_error dimensions)) ;;
    single dimensions tree dim i marg sample' st
  else
    several dim_list dimensions k i points dim_helper interval_sizes marg sample' st.

(** Lines 202-261: the body of the loop over the trees. *)
Definition tree_body (dim_list dimensions : list Z) (k : nat)
    (tfe : option Q) (tree : Z) : M (option Q) :=
  mids <- getattr "all_midpoints" all_midpoints ;;
  mt <- index mids tree ;;
  g <- gather tree dimensions ;;
  let '(combi_midpoints, sizes, dim_helper) := g in
  let midpoints := product combi_midpoints in
  let interval_sizes := product sizes in
  st <- foldM (point dim_list dimensions k tree dim_helper interval_sizes)
          (combine (py_range 0 (length midpoints)) midpoints)
          {| sample := repeat None (length mt); weightedSum := 0;
             weightedSumOfSquares := 0; prev_FraqExp := 0;
             totalFractionsExplained := tfe |} ;;
  ret (totalFractionsExplained st).

(** Lines 198-261: the body of the loop over the subsets of order [k]. *)
Definition subset_body (dim_list : list Z) (k : nat) (tfe : option Q)
    (dimensions : list Z) : M (option Q) :=
  m <- getattr "param_dic" param_dic ;;
  if has_key m dimensions then
    memo_get_MVC dimensions ;;; ret tfe
  else
    mids <- getattr "all_midpoints" all_midpoints ;;
    foldM (tree_body dim_list dimensions k) (py_range 0 (length mids)) tfe.

(** Lines 196-262: the body of the loop over the orders.  Its last
    statement, [return self.param_dict], belongs to this loop and reads an
    attribute that the class never assigns (the memo is [param_dic]). *)
Definition order_body (dim_list : list Z) (tfe : option Q) (k : nat)
  : M (flow (option Q) Q) :=
  tfe' <- foldM (subset_body dim_list k) (combinations dim_list k) tfe ;;
  r <- getattr_missing "param_dict" ;;
  ret (Return r).

(** Lines 263-264: the [else] of the loop over the orders. *)
Definition orelse (tfe : option Q) : M Q :=
  lift (of_option (UnboundLocalError "totalFractionsExplained") tfe).

Definition get_marginal (dim_list : list Z) : M Q :=
  let K := length dim_list in
  for_else (order_body dim_list) orelse (seq 1 K) None.

(** ** fANOVA.get_marginal_for_values (lines 267-292) *)

Definition get_marginal_for_values (dimlist : list Z) (valuesToPredict : list Q)
  : M (Q * Q) :=
  mids <- getattr "all_midpoints" all_midpoints ;;
  m0 <- index mids 0 ;;
  let num_dims := length m0 in
  sample <- foldM (fun sample i =>
                     d <- index dimlist i ;;
                     v <- index valuesToPredict i ;;
                     lift (of_option IndexError (py_setitem sample d (Some v))))
                  (py_range 0 (length dimlist)) (repeat None num_dims) ;;
  preds <- predict sample ;;
  ret (np_mean lib preds, np_std lib preds).

(** ** fANOVA.get_most_important_pairwise_marginals (lines 294-317) *)

(** The order of Python on the tuples [(marginal, p1, p2)]. *)
Definition triple_compare (a b : Q * Z * Z) : comparison :=
  let '(ma, a1, a2) := a in
  let '(mb, b1, b2) := b in
  match Qcompare ma mb with
  | Eq => match Z.compare a1 b1 with
          | Eq => Z.compare a2 b2
          | c => c
          end
  | c => c
  end.

(** [a >= b] *)
Definition triple_geb (a b : Q * Z * Z) : bool :=
  match triple_compare a b with
  | Lt => false
  | _ => true
  end.

Fixpoint insert_desc (x : Q * Z * Z) (l : list (Q * Z * Z)) : list (Q * Z * Z) :=
  match l with
  | [] => [x]
  | y :: l' => if triple_geb x y then x :: y :: l' else y :: insert_desc x l'
  end.

(** [sorted(l, reverse=True)]: a stable descending sort; elements that
    compare equal keep the order they have in [l]. *)
Definition sorted_reverse (l : list (Q * Z * Z)) : list (Q * Z * Z) :=
  fold_right insert_desc [] l.

(** Lines 314-315. *)
Definition select (n : Z) (pairwise_marginals : list (Q * Z * Z)) : list (Z * Z) :=
  let pairwise_marginal_performance := sorted_reverse pairwise_marginals in
  map (fun t => let '(_, p1, p2) := t in (p1, p2))
      (py_slice_to pairwise_marginal_performance n).

Definition get_most_important_pairwise_marginals (n : Z) : M (list (Z * Z)) :=
  params <- getattr "cs_params" cs_params ;;
  let dimensions := py_range 0 (length params) in
  pairwise_marginals <-
    foldM (fun pairwise_marginals combi =>
             pairwise_marginal_performance <- get_marginal combi ;;
             c0 <- index combi 0 ;;
             c1 <- index combi 1 ;;
             ret (pairwise_marginals ++ [(pairwise_marginal_performance, c0, c1)]))
          (combinations dimensions 2) [] ;;
  ret (select n pairwise_marginals).

End Get_marginal.

(** ** fANOVA.__init__ (lines 11-173) *)

(** The arguments of the constructor that it reads.  [X] is a matrix given
    by its rows, all of one length; a matrix without rows has no columns. *)
Module Args.
Record t : Type := {
  X : option (list (list Q));
  Y : option (list Q);
  cs : option (list Hyperparameter);
  forest : option Forest;
  num_trees : Z;
  seed : option Z;
  bootstrapping : bool;
  points_per_tree : option Z;
  max_features : option Z
}.
End Args.

(** [X.shape[1]] *)
Definition shape1 (X : list (list Q)) : nat :=
  match X with
  | [] => O
  | row :: _ => length row
  end.

(** [X[:,i]] *)
Fixpoint column (X : list (list Q)) (i : Z) : result (list Q) :=
  match X with
  | [] => inr []
  | row :: X' =>
      match py_index row i, column X' i with
      | Some x, inr c => inr (x :: c)
      | None, _ => inl IndexError
      | _, inl e => inl e
      end
  end.

(** [np.min] and [np.max] of a vector; numpy raises ValueError on an empty
    one. *)
Definition np_min (v : list Q) : result Q :=
  match v with
  | [] => inl ValueError
  | x :: v' => inr (fold_left Qmin v' x)
  end.

Definition np_max (v : list Q) : result Q :=
  match v with
  | [] => inl ValueError
  | x :: v' => inr (fold_left Qmax v' x)
  end.

(** [len(set(v))] *)
Fixpoint len_set (v : list Q) : nat :=
  match v with
  | [] => O
  | x :: v' => if existsb (Qeq_bool x) v' then len_set v' else S (len_set v')
  end.

Definition Qgtb (a b : Q) : bool := negb (Qle_bool a b).

Definition set_num_trees (n : Z) (o : fANOVA) : fANOVA :=
  {| num_trees := Some n; cs := cs o; cs_params := cs_params o;
     the_forest := the_forest o; param_dic := param_dic o;
     all_midpoints := all_midpoints o; all_sizes := all_sizes o |}.

Definition set_cs (c : list Hyperparameter) (o : fANOVA) : fANOVA :=
  {| num_trees := num_trees o; cs := Some c; cs_params := cs_params o;
     the_forest := the_forest o; param_dic := param_dic o;
     all_midpoints := all_midpoints o; all_sizes := all_sizes o |}.

Definition set_cs_params (c : list Hyperparameter) (o : fANOVA) : fANOVA :=
  {| num_trees := num_trees o; cs := cs o; cs_params := Some c;
     the_forest := the_forest o; param_dic := param_dic o;
     all_midpoints := all_midpoints o; all_sizes := all_sizes o |}.

Definition set_the_forest (f : Forest) (o : fANOVA) : fANOVA :=
  {| num_trees := num_trees o; cs := cs o; cs_params := cs_params o;
     the_forest := Some f; param_dic := param_dic o;
     all_midpoints := all_midpoints o; all_sizes := all_sizes o |}.

Definition set_all_midpoints (g : list (list (list Q))) (o : fANOVA) : fANOVA :=
  {| num_trees := num_trees o; cs := cs o; cs_params := cs_params o;
     the_forest := the_forest o; param_dic := param_dic o;
     all_midpoints := Some g; all_sizes := all_sizes o |}.

Definition set_all_sizes (g : list (list (list Q))) (o : fANOVA) : fANOVA :=
  {| num_trees := num_trees o; cs := cs o; cs_params := cs_params o;
     the_forest := the_forest o; param_dic := param_dic o;
     all_midpoints := all_midpoints o; all_sizes := Some g |}.

Section Init.

Variable half : Q.
Variable lib : Lib.

Definition no_ConfigSpace_message : string :=
  "If no ConfigSpace argument is given, you have to provide data for X and Y.".

Definition no_forest_message : string :=
  "If no pyrfr forest is present, you have to provide data for X and Y.".

(** Lines 51-61: the configuration space, built from the data when none is
    given. *)
Definition config_space (a : Args.t) : M (list Hyperparameter) :=
  match Args.cs a with
  | Some c => ret c
  | None =>
      match Args.X a, Args.Y a with
      | Some X, Some _ =>
          match X with
          | [] => raise ValueError
          | _ :: _ =>
              foldM (fun c i =>
                       col <- lift (column X i) ;;
                       lo <- lift (np_min col) ;;
                       hi <- lift (np_max col) ;;
                       ret (c ++ [UniformFloatHyperparameter
                                    (NilZero.string_of_int (Z.to_int i)) lo hi]))
                    (py_range 0 (shape1 X)) []
          end
      | _, _ => raise (RuntimeError no_ConfigSpace_message)
      end
  end.

(** Lines 67-78: the data checked against the configuration space. *)
Definition check_data (a : Args.t) (params : list Hyperparameter) : M unit :=
  X <- lift (of_option (AttributeError "shape") (Args.X a)) ;;
  if negb (Nat.eqb (shape1 X) (length params)) then
    raise (RuntimeError "Number of parameters in config space do not match input X")
  else
    foldM (fun _ i =>
             hp <- index params i ;;
             col <- lift (column X i) ;;
             match hp with
             | UniformFloatHyperparameter _ lower upper =>
                 hi <- lift (np_max col) ;;
                 if Qgtb hi upper then
                   raise (RuntimeError "Some sample values from X are not in the given interval")
                 else
                   lo <- lift (np_min col) ;;
                   if Qgtb lo lower then
                     raise (RuntimeError "Some sample values from X are not in the given interval")
                   else ret tt
             | CategoricalHyperparameter _ choices =>
                 let unique_vals := len_set col in
                 if Nat.ltb (length choices) unique_vals then
                   raise (RuntimeError "There are some categoricals missing in the config space specification")
                 else if Nat.ltb unique_vals (length choices) then
                   raise (RuntimeError "There are too many categoricals specified in the config space")
                 else ret tt
             end)
          (py_range 0 (length params)) tt.

(** Lines 83-88. *)
Definition types_of (params : list Hyperparameter) : list Z :=
  map (fun hp => match hp with
                 | CategoricalHyperparameter _ choices => Z.of_nat (length choices)
                 | UniformFloatHyperparameter _ _ _ => 0
                 end) params.

(** Lines 92-113: a forest is trained when none is given. *)
Definition train (a : Args.t) : M Forest :=
  match Args.forest a with
  | Some f => ret f
  | None =>
      match Args.X a, Args.Y a with
      | Some X, Some Y =>
          let options :=
            {| opt_num_trees := Args.num_trees a;
               opt_seed := match Args.seed a with
                           | None => randint lib (2 ^ 31 - 1)
                           | Some s => s
                           end;
               opt_do_bootstrapping := Args.bootstrapping a;
               opt_num_data_points_per_tree :=
                 match Args.points_per_tree a with
                 | None => Z.of_nat (length X)
                 | Some p => p
                 end;
               opt_max_features :=
                 match Args.max_features a with
                 | None => (Z.of_nat (shape1 X) * 7) / 10
                 | Some m => m
                 end |} in
          data <- foldM (fun data i =>
                           x <- index X i ;;
                           y <- index Y i ;;
                           ret (data ++ [(x, y)]))
                        (py_range 0 (length Y)) [] ;;
          fun w => (inr (fit lib options data),
                    {| self := self w; queries := queries w;
                       trainings := trainings w ++ [(options, data)] |})
      | _, _ => raise (RuntimeError no_forest_message)
      end
  end.

(** Lines 134-142. *)
Definition val_mins (params : list Hyperparameter) : Grid.bounds :=
  map (fun hp => match hp with
                 | CategoricalHyperparameter _ _ => None
                 | UniformFloatHyperparameter _ lower _ => Some lower
                 end) params.

Definition val_maxs (params : list Hyperparameter) : Grid.bounds :=
  map (fun hp => match hp with
                 | CategoricalHyperparameter _ _ => None
                 | UniformFloatHyperparameter _ _ upper => Some upper
                 end) params.

(** Lines 144-173: the grid of every tree appended to the two attributes. *)
Definition build_grid (params : list Hyperparameter)
    (forest_split_values : list (list (list Q))) : M unit :=
  foldM (fun _ tree_split_values =>
           g <- lift (Grid.tree_grid half (val_mins params) (val_maxs params)
                        tree_split_values) ;;
           let (midpoints, sizes) := g in
           am <- getattr "all_midpoints" all_midpoints ;;
           setattr (set_all_midpoints (am ++ [midpoints])) ;;;
           az <- getattr "all_sizes" all_sizes ;;
           setattr (set_all_sizes (az ++ [sizes])))
        forest_split_values tt.

Definition init (a : Args.t) : M unit :=
  setattr (set_num_trees (Args.num_trees a)) ;;;
  c <- config_space a ;;
  setattr (set_cs c) ;;;
  setattr (set_cs_params c) ;;;
  params <- getattr "cs_params" cs_params ;;
  check_data a params ;;;
  let types := types_of params in
  forest <- train a ;;
  setattr (set_the_forest forest) ;;;
  setattr (set_param_dic []) ;;;
  let forest_split_values := all_split_values forest types in
  setattr (set_all_midpoints []) ;;;
  setattr (set_all_sizes []) ;;;
  build_grid params forest_split_values.

(** [fANOVA(...)]: the constructor run on a new object. *)
Definition construct (a : Args.t) (w : World) : result unit * World :=
  init a {| self := blank; queries := queries w; trainings := trainings w |}.

End Init.

(** ** A small engine

    Two continuous dimensions on [0, 1] and a forest of one tree that splits
    dimension 0 at 1/4 and 3/4 and dimension 1 at 1/4, 1/2 and 3/4.  The tree
    predicts one plus the sum of the coordinates that the query fixes. *)

Module Small.

Definition forest : Forest :=
  {| all_split_values := fun _ => [[[1 # 4; 3 # 4]; [1 # 4; 1 # 2; 3 # 4]]]%Q;
     marginal_mean_prediction := fun sample =>
       [fold_left (fun acc o => match o with
                                | Some x => (acc + x)%Q
                                | None => acc
                                end) sample 1%Q] |}.

(** pyrfr's running statistic is taken to report [x * w] for the single
    point [x] of weight [w]; numpy's mean is exact and the deviation of one
    prediction is zero. *)
Definition lib : Lib :=
  {| fit := fun _ _ => forest;
     randint := fun _ => 0;
     push_variance := fun x w => inr (x * w)%Q;
     np_mean := fun l => (fold_left Qplus l 0 / inject_Z (Z.of_nat (length l)))%Q;
     np_std := fun _ => 0%Q |}.

Definition args : Args.t :=
  {| Args.X := Some [[0; 0]; [1; 1]]%Q;
     Args.Y := Some [1; 3]%Q;
     Args.cs := Some [UniformFloatHyperparameter "a" 0 1;
                      UniformFloatHyperparameter "b" 0 1];
     Args.forest := Some forest;
     Args.num_trees := 1;
     Args.seed := Some 1;
     Args.bootstrapping := true;
     Args.points_per_tree := None;
     Args.max_features := None |}.

Definition nothing : World :=
  {| self := blank; queries := []; trainings := [] |}.

(** The engine as the constructor leaves it, [(1/2)] read as one half. *)
Definition engine : fANOVA :=
  {| num_trees := Some 1;
     cs := Args.cs args;
     cs_params := Args.cs args;
     the_forest := Some forest;
     param_dic := Some [];
     all_midpoints := Some [[[(1 # 2) * ((3 # 4) + (1 # 4))];
                             [(1 # 2) * ((1 # 2) + (1 # 4));
                              (1 # 2) * ((3 # 4) + (1 # 2))]]]%Q;
     all_sizes := Some [[[(3 # 4) - (1 # 4)];
                         [(1 # 2) - (1 # 4); (3 # 4) - (1 # 2)]]]%Q |}.

Definition world : World :=
  {| self := engine; queries := []; trainings := [] |}.

(** The small engine after a first request for dimension 0. *)
Definition warm : World := snd (get_marginal lib [0] world).

(** An engine for a single continuous dimension on [0, 1] whose tree never
    splits. *)
Definition unsplit_forest : Forest :=
  {| all_split_values := fun _ => [[[]]];
     marginal_mean_prediction := fun _ => [1%Q] |}.

Definition unsplit_args : Args.t :=
  {| Args.X := Some [[0]; [1]]%Q;
     Args.Y := Some [1; 1]%Q;
     Args.cs := Some [UniformFloatHyperparameter "a" 0 1];
     Args.forest := Some unsplit_forest;
     Args.num_trees := 1;
     Args.seed := Some 1;
     Args.bootstrapping := true;
     Args.points_per_tree := None;
     Args.max_features := None |}.

(** Arguments without a configuration space and without data. *)
Definition no_data : Args.t :=
  {| Args.X := None;
     Args.Y := Some [1]%Q;
     Args.cs := None;
     Args.forest := None;
     Args.num_trees := 16;
     Args.seed := None;
     Args.bootstrapping := true;
     Args.points_per_tree := None;
     Args.max_features := None |}.

End Small.

(** ** What the specification asks of the marginal evaluator (section 4.2)

    Written from the words of the specification, to be compared with
    [accumulate] and [raw_contribution]: the sums over the cells, the total
    weight, and the variance clamped at zero. *)
Module Spec_evaluator.

Definition weighted_sum (cells : list (Q * list Q)) : Q :=
  fold_right (fun c acc => (fst c * np_prod (snd c) + acc)%Q) 0%Q cells.

Definition weighted_sum_of_squares (cells : list (Q * list Q)) : Q :=
  fold_right (fun c acc => ((fst c * fst c) * np_prod (snd c) + acc)%Q) 0%Q cells.

Definition total_weight (cells : list (Q * list Q)) : Q :=
  fold_right (fun c acc => (np_prod (snd c) + acc)%Q) 0%Q cells.

Definition mean (cells : list (Q * list Q)) : Q :=
  (weighted_sum cells / total_weight cells)%Q.

Definition variance (cells : list (Q * list Q)) : Q :=
  Qmax 0 (weighted_sum_of_squares cells / total_weight cells
          - mean cells * mean cells)%Q.

End Spec_evaluator.

(** ** Notions used in the statements *)

(** A statement that never completes normally. *)
Definition never_ok {A : Type} (m : M A) : Prop :=
  forall w, exists e, fst (m w) = inl e.

(** A statement under which a property of the world persists. *)
Definition keeps {A : Type} (P : World -> Prop) (m : M A) : Prop :=
  forall w, P w -> P (snd (m w)).

(** A statement that leaves the world as it found it. *)
Definition reads_only {A : Type} (m : M A) : Prop :=
  forall w, snd (m w) = w.

(** A statement that raises, when it raises, an exception of [E]. *)
Definition fails_within {A : Type} (E : exn -> Prop) (m : M A) : Prop :=
  forall w e w', m w = (inl e, w') -> E e.

(** The memo holds the entry [e] under [key]. *)
Definition holds (key : list Z) (e : entry) (w : World) : Prop :=
  exists m, param_dic (self w) = Some m /\ lookup key m = Some e.

(** The order in which [sorted(..., reverse=True)] leaves two neighbours:
    the larger contribution first and, for equal contributions, the larger
    pair of dimensions first. *)
Definition descending (a b : Q * Z * Z) : Prop :=
  let '(ma, a1, a2) := a in
  let '(mb, b1, b2) := b in
  (mb < ma)%Q \/ ((ma == mb)%Q /\ (b1 < a1 \/ (a1 = b1 /\ b2 <= a2))).

(** The query vector that fixes dimension [dn] of a grid of [n] dimensions
    at [x] and leaves the others to be marginalised. *)
Definition cell_vector (n dn : nat) (x : Q) : list (option Q) :=
  repeat None dn ++ Some x :: repeat None (n - dn - 1).

(** [weightedSumOfSquares] of line 229 after the cells (midpoint, size) of
    dimension [dn] of tree [t], in a grid of [n] dimensions, where [pv x w]
    is what the running statistic reports for the point [x] of weight [w]. *)
Definition tree_sum (pv : Q -> Q -> Q) (forest : Forest) (t n dn : nat)
    (cells : list (Q * Q)) : Q :=
  fold_left (fun wss c =>
               (wss + pv (nth t (marginal_mean_prediction forest
                                   (cell_vector n dn (fst c))) 0)
                         (snd c))%Q)
            cells 0%Q.

(** The attributes that a request reads, with the memo [mc]. *)
Definition engine_with (mids szs : list (list (list Q))) (forest : Forest)
    (params : list Hyperparameter) (mc : memo) (w : World) : Prop :=
  all_midpoints (self w) = Some mids
  /\ all_sizes (self w) = Some szs
  /\ the_forest (self w) = Some forest
  /\ cs_params (self w) = Some params
  /\ param_dic (self w) = Some mc.

(** * Properties *)

(** ** Reasoning about statements *)

Lemma bind_inl {A B : Type} (m : M A) (f : A -> M B) (w w' : World) (e : exn) :
  m w = (inl e, w') -> bind m f w = (inl e, w').
Proof. intros H. unfold bind. rewrite H. reflexivity. Qed.

Lemma bind_inr {A B : Type} (m : M A) (f : A -> M B) (w w' : World) (a : A) :
  m w = (inr a, w') -> bind m f w = f a w'.
Proof. intros H. unfold bind. rewrite H. reflexivity. Qed.

Lemma never_ok_raise {A : Type} (e : exn) : never_ok (@raise A e).
Proof. intros w. exists e. reflexivity. Qed.

Lemma never_ok_bind_r {A B : Type} (m : M A) (f : A -> M B) :
  (forall a, never_ok (f a)) -> never_ok (bind m f).
Proof.
  intros H w. unfold bind.
  destruct (m w) as [[e | a] w'].
  - exists e. reflexivity.
  - apply H.
Qed.

Lemma never_ok_bind_l {A B : Type} (m : M A) (f : A -> M B) :
  never_ok m -> never_ok (bind m f).
Proof.
  intros H w. unfold bind.
  destruct (H w) as [e He].
  destruct (m w) as [[e' | a] w']; simpl in He.
  - exists e'. reflexivity.
  - discriminate.
Qed.

Lemma keeps_ret {A : Type} (P : World -> Prop) (a : A) : keeps P (ret a).
Proof. intros w H. exact H. Qed.

Lemma keeps_raise {A : Type} (P : World -> Prop) (e : exn) : keeps P (@raise A e).
Proof. intros w H. exact H. Qed.

Lemma keeps_lift {A : Type} (P : World -> Prop) (r : result A) : keeps P (lift r).
Proof. intros w H. exact H. Qed.

Lemma keeps_getattr {A : Type} (P : World -> Prop) (attr : string)
    (f : fANOVA -> option A) : keeps P (getattr attr f).
Proof. intros w H. exact H. Qed.

Lemma keeps_index {A : Type} (P : World -> Prop) (l : list A) (i : Z) :
  keeps P (index l i).
Proof. intros w H. exact H. Qed.

Lemma keeps_bind {A B : Type} (P : World -> Prop) (m : M A) (f : A -> M B) :
  keeps P m -> (forall a, keeps P (f a)) -> keeps P (bind m f).
Proof.
  intros Hm Hf w H. unfold bind.
  specialize (Hm w H).
  destruct (m w) as [[e | a] w']; simpl in *.
  - exact Hm.
  - apply Hf. exact Hm.
Qed.

Lemma keeps_foldM {A S : Type} (P : World -> Prop) (body : S -> A -> M S)
    (xs : list A) :
  (forall s x, keeps P (body s x)) -> forall s, keeps P (foldM body xs s).
Proof.
  intros Hb. induction xs as [| x xs IH]; intros s; simpl.
  - apply keeps_ret.
  - apply keeps_bind; [apply Hb | exact IH].
Qed.

Lemma keeps_for_else {A S R : Type} (P : World -> Prop)
    (body : S -> A -> M (flow S R)) (orelse : S -> M R) (xs : list A) :
  (forall s x, keeps P (body s x)) -> (forall s, keeps P (orelse s)) ->
  forall s, keeps P (for_else body orelse xs s).
Proof.
  intros Hb Ho. induction xs as [| x xs IH]; intros s; simpl.
  - apply Ho.
  - apply keeps_bind; [apply Hb |].
    intros [s' | r]; [apply IH | apply keeps_ret].
Qed.

Create HintDb keeps_db.
#[local] Hint Resolve keeps_ret keeps_raise keeps_lift keeps_getattr keeps_index : keeps_db.


Lemma reads_only_keeps {A : Type} (m : M A) :
  reads_only m <-> forall P, keeps P m.
Proof.
  split.
  - intros H P w HP. rewrite H. exact HP.
  - intros H w. symmetry. apply (H (eq w)). reflexivity.
Qed.

Lemma reads_only_foldM_index {A S : Type} (body : S -> A -> M S) (xs : list A) :
  (forall s x, reads_only (body s x)) -> forall s, reads_only (foldM body xs s).
Proof.
  intros Hb s. apply reads_only_keeps. intros P.
  apply keeps_foldM. intros s' x. apply reads_only_keeps. apply Hb.
Qed.

(** ** The split grid *)

Lemma np_zip_length (f : Q -> Q -> Q) (xs ys : list Q) :
  length (np_zip f xs ys) = Nat.min (length xs) (length ys).
Proof.
  revert ys. induction xs as [| x xs IH]; intros [| y ys]; simpl; auto.
Qed.

Lemma tl_length {A : Type} (l : list A) : length (tl l) = (length l - 1)%nat.
Proof. destruct l; simpl; lia. Qed.

Lemma removelast_length' {A : Type} (l : list A) :
  length (removelast l) = (length l - 1)%nat.
Proof.
  induction l as [| x [| y l] IH]; simpl in *; try lia.
Qed.

Lemma midpoint_p_length (half : Q) (var_splits : list Q) :
  length (Grid.midpoint_p half var_splits) = (length var_splits - 1)%nat.
Proof.
  unfold Grid.midpoint_p.
  rewrite length_map, np_zip_length, tl_length, removelast_length'. lia.
Qed.

Lemma size_length (var_splits : list Q) :
  length (Grid.size var_splits) = (length var_splits - 1)%nat.
Proof.
  unfold Grid.size. rewrite np_zip_length, tl_length, removelast_length'. lia.
Qed.

(** The part of the grid invariant that the constructor does establish:
    dimension by dimension, a tree has as many sizes as midpoints. *)
Lemma cells_from_lengths (half : Q) (val_mins : Grid.bounds)
    (tree_split_values : list (list Q)) :
  forall i midpoints sizes midpoints' sizes',
    Forall2 (fun m s => length m = length s) midpoints sizes ->
    Grid.cells_from half val_mins i tree_split_values midpoints sizes
      = inr (midpoints', sizes') ->
    Forall2 (fun m s => length m = length s) midpoints' sizes'.
Proof.
  induction tree_split_values as [| v rest IH]; intros i ms ss ms' ss' Hinv H; simpl in H.
  - inversion H; subst. exact Hinv.
  - destruct (py_index val_mins i) as [[lo |] |]; try discriminate.
    + eapply IH; [| exact H].
      apply Forall2_app; [exact Hinv |].
      constructor; [| constructor].
      rewrite midpoint_p_length, size_length. reflexivity.
    + eapply IH; [| exact H].
      apply Forall2_app; [exact Hinv |].
      constructor; [| constructor].
      unfold np_ones. rewrite repeat_length. reflexivity.
Qed.

Lemma tree_grid_lengths (half : Q) (val_mins val_maxs : Grid.bounds)
    (tree_split_values midpoints sizes : list (list Q)) :
  Grid.tree_grid half val_mins val_maxs tree_split_values = inr (midpoints, sizes) ->
  Forall2 (fun m s => length m = length s) midpoints sizes.
Proof.
  unfold Grid.tree_grid.
  destruct (Grid.augment val_mins val_maxs tree_split_values); [discriminate |].
  apply cells_from_lengths. constructor.
Qed.

(** C1.  The grid of a continuous dimension is computed from the raw
    thresholds of the tree, not from the thresholds between the bounds: for
    a dimension with bounds [lo] and [hi] and raw thresholds [raw] the
    constructor stores the midpoints and sizes of the consecutive pairs of
    [raw], one fewer than [raw] has elements, where the midpoints and sizes
    of the augmented list are one more. *)
Theorem tree_grid_uses_raw_thresholds :
  forall (half lo hi : Q) (raw : list Q),
    Grid.tree_grid half [Some lo] [Some hi] [raw]
      = inr ([Grid.midpoint_p half raw], [Grid.size raw])
    /\ length (Grid.midpoint_p half raw) = (length raw - 1)%nat
    /\ length (Grid.size raw) = (length raw - 1)%nat
    /\ length (Grid.spec_midpoints lo hi raw) = (length raw + 1)%nat
    /\ length (Grid.spec_sizes lo hi raw) = (length raw + 1)%nat.
Proof.
  intros half lo hi raw.
  split; [reflexivity |].
  split; [apply midpoint_p_length |].
  split; [apply size_length |].
  unfold Grid.spec_midpoints, Grid.spec_sizes.
  rewrite !np_zip_length, !tl_length, !removelast_length'.
  simpl. rewrite !length_app. simpl. lia.
Qed.

(** The thresholds [1/2] on [0, 1]: an empty grid, where the augmented
    thresholds give the midpoints 1/4 and 3/4. *)
Example tree_grid_one_threshold :
  forall half : Q,
    Grid.tree_grid half [Some 0%Q] [Some 1%Q] [[(1 # 2)%Q]] = inr ([[]], [[]])
    /\ Grid.spec_midpoints 0 1 [(1 # 2)%Q] = [((0 + (1 # 2)) / 2)%Q; (((1 # 2) + 1) / 2)%Q]
    /\ Grid.spec_sizes 0 1 [(1 # 2)%Q] = [((1 # 2) - 0)%Q; (1 - (1 # 2))%Q].
Proof. intros half. repeat split. Qed.

(** C7.  A continuous dimension on which the tree never splits gets an
    empty grid: the constructor run on such a forest completes and stores no
    midpoint and no size for the dimension. *)
Theorem unsplit_dimension_has_empty_grid :
  forall (half : Q) (lib : Lib) (w : World),
    fst (construct half lib Small.unsplit_args w) = inr tt
    /\ all_midpoints (self (snd (construct half lib Small.unsplit_args w))) = Some [[[]]]
    /\ all_sizes (self (snd (construct half lib Small.unsplit_args w))) = Some [[[]]].
Proof. intros half lib w. repeat split. Qed.

(** The small engine is what the constructor builds. *)
Example construct_small :
  construct (1 # 2) Small.lib Small.args Small.nothing = (inr tt, Small.world).
Proof. reflexivity. Qed.

(** ** The constructor's first check *)

(** C10.  Without a ConfigSpace and without [X] or [Y] the constructor
    raises the RuntimeError that asks for data; no forest has been trained,
    and the object has neither a forest nor a grid. *)
Theorem init_without_data_raises :
  forall (half : Q) (lib : Lib) (a : Args.t) (w : World),
    Args.cs a = None ->
    Args.X a = None \/ Args.Y a = None ->
    fst (construct half lib a w) = inl (RuntimeError no_ConfigSpace_message)
    /\ trainings (snd (construct half lib a w)) = trainings w
    /\ queries (snd (construct half lib a w)) = queries w
    /\ the_forest (self (snd (construct half lib a w))) = None
    /\ all_midpoints (self (snd (construct half lib a w))) = None
    /\ all_sizes (self (snd (construct half lib a w))) = None.
Proof.
  intros half lib a w Hcs Hxy.
  unfold construct, init, config_space.
  rewrite Hcs.
  destruct Hxy as [H | H]; rewrite H.
  - repeat split.
  - destruct (Args.X a); repeat split.
Qed.

Lemma init_without_data_raises_witness :
  Args.cs Small.no_data = None
  /\ (Args.X Small.no_data = None \/ Args.Y Small.no_data = None)
  /\ fst (construct (1 # 2) Small.lib Small.no_data Small.nothing)
       = inl (RuntimeError no_ConfigSpace_message).
Proof.
  split; [reflexivity |].
  split; [left; reflexivity |].
  apply (init_without_data_raises (1 # 2) Small.lib Small.no_data Small.nothing).
  - reflexivity.
  - left. reflexivity.
Defined.

(** ** The marginal evaluator *)

(** The branch for two or more dimensions never completes: it reads the
    unbound name [thisTreeTotalVar]. *)
Lemma several_never_ok (dim_list dimensions : list Z) (k : nat) (i : Z)
    (points : list Q) (dim_helper : list Z) (interval_sizes : list (list Q))
    (marg : Q) (sample' : list (option Q)) (st : point_state) :
  never_ok (several dim_list dimensions k i points dim_helper interval_sizes
              marg sample' st).
Proof.
  unfold several.
  apply never_ok_bind_r; intros cell.
  apply never_ok_bind_r; intros svc.
  apply never_ok_bind_r; intros n.
  apply never_ok_bind_l. apply never_ok_raise.
Qed.

(** ** get_marginal never returns *)

Lemma order_body_never_ok (lib : Lib) (dim_list : list Z) (tfe : option Q) (k : nat) :
  never_ok (order_body lib dim_list tfe k).
Proof.
  unfold order_body.
  apply never_ok_bind_r; intros tfe'.
  apply never_ok_bind_l. apply never_ok_raise.
Qed.

Lemma get_marginal_empty (lib : Lib) (w : World) :
  get_marginal lib [] w = (inl (UnboundLocalError "totalFractionsExplained"), w).
Proof. reflexivity. Qed.

Lemma get_marginal_never_ok (lib : Lib) (dim_list : list Z) :
  never_ok (get_marginal lib dim_list).
Proof.
  destruct dim_list as [| d rest].
  - intros w. rewrite get_marginal_empty. eexists. reflexivity.
  - unfold get_marginal. cbn [length seq for_else].
    apply never_ok_bind_l. apply order_body_never_ok.
Qed.

(** A request for a non-empty subset runs the loop over the orders once:
    it is the first order's body. *)
Lemma get_marginal_first_order (lib : Lib) (d : Z) (rest : list Z) (w : World) :
  snd (get_marginal lib (d :: rest) w)
    = snd (foldM (subset_body lib (d :: rest) 1) (combinations (d :: rest) 1) None w)
  /\ (forall tfe w',
        foldM (subset_body lib (d :: rest) 1) (combinations (d :: rest) 1) None w
          = (inr tfe, w') ->
        fst (get_marginal lib (d :: rest) w) = inl (AttributeError "param_dict")).
Proof.
  unfold get_marginal. cbn [length seq for_else].
  destruct (foldM (subset_body lib (d :: rest) 1) (combinations (d :: rest) 1) None w)
    as [[e | tfe] w'] eqn:E.
  - assert (H : order_body lib (d :: rest) None 1%nat w = (inl e, w'))
      by (unfold order_body; apply bind_inl; exact E).
    rewrite (bind_inl _ _ _ _ _ H).
    split; [reflexivity |]. intros tfe w'' H'. discriminate.
  - assert (H : order_body lib (d :: rest) None 1%nat w
                = (inl (AttributeError "param_dict"), w'))
      by (unfold order_body; rewrite (bind_inr _ _ _ _ _ E); reflexivity).
    rewrite (bind_inl _ _ _ _ _ H).
    split; [reflexivity |]. intros tfe' w'' _. reflexivity.
Qed.

(** C3.  Whatever the subset and the engine, neither the first call nor the
    second call of [get_marginal] returns a value: both raise. *)
Theorem get_marginal_twice_never_returns :
  forall (lib : Lib) (dim_list : list Z) (w : World),
    exists e1 e2 : exn,
      fst (get_marginal lib dim_list w) = inl e1
      /\ fst (get_marginal lib dim_list (snd (get_marginal lib dim_list w))) = inl e2.
Proof.
  intros lib dim_list w.
  destruct (get_marginal_never_ok lib dim_list w) as [e1 H1].
  destruct (get_marginal_never_ok lib dim_list (snd (get_marginal lib dim_list w)))
    as [e2 H2].
  exists e1, e2. split; assumption.
Qed.

(** On the small engine: both calls for dimension 0 stop at [return
    self.param_dict]; the first one has queried the forest and stored the
    entry, the second one finds the entry and queries nothing. *)
Example get_marginal_twice_small :
  let first := get_marginal Small.lib [0] Small.world in
  let second := get_marginal Small.lib [0] (snd first) in
  fst first = inl (AttributeError "param_dict")
  /\ fst second = inl (AttributeError "param_dict")
  /\ length (queries (snd first)) = 1%nat
  /\ queries (snd second) = queries (snd first)
  /\ snd second = snd first.
Proof. repeat split. Qed.

(** ** The keys of the memo *)

Lemma combinations_1 {A : Type} (l : list A) :
  combinations l 1 = map (fun d => [d]) l.
Proof.
  induction l as [| x t IH]; simpl; [reflexivity |].
  destruct t; simpl in *; rewrite ?IH; reflexivity.
Qed.

Lemma combinations_short {A : Type} (l : list A) :
  forall k, (length l < k)%nat -> combinations l k = [].
Proof.
  induction l as [| x t IH]; intros [| k] H; simpl in *; try lia; try reflexivity.
  rewrite (IH k) by lia. rewrite (IH (S k)) by lia. reflexivity.
Qed.

Lemma combinations_all {A : Type} (l : list A) :
  combinations l (length l) = [l].
Proof.
  induction l as [| x t IH]; simpl; [reflexivity |].
  rewrite IH. rewrite combinations_short by lia. reflexivity.
Qed.

(** C4.  In whatever order a set of dimensions is listed, the request
    returns no value: both orderings raise. *)
Theorem orderings_never_return :
  forall (lib : Lib) (l1 l2 : list Z) (w : World),
    Permutation l1 l2 ->
    exists e1 e2 : exn,
      fst (get_marginal lib l1 w) = inl e1
      /\ fst (get_marginal lib l2 w) = inl e2.
Proof.
  intros lib l1 l2 w _.
  destruct (get_marginal_never_ok lib l1 w) as [e1 H1].
  destruct (get_marginal_never_ok lib l2 w) as [e2 H2].
  exists e1, e2. split; assumption.
Qed.

Lemma orderings_never_return_witness :
  Permutation [0; 1] [1; 0]
  /\ exists e1 e2 : exn,
       fst (get_marginal Small.lib [0; 1] Small.world) = inl e1
       /\ fst (get_marginal Small.lib [1; 0] Small.world) = inl e2.
Proof.
  split; [apply perm_swap |].
  apply (orderings_never_return Small.lib [0; 1] [1; 0] Small.world).
  apply perm_swap.
Defined.

(** On the small engine both orderings of (0, 1) stop at [return
    self.param_dict], having stored the same entries under (0,) and (1,);
    no key of two dimensions is looked up or stored. *)
Example orderings_on_the_small_engine :
  let first := get_marginal Small.lib [0; 1] Small.world in
  let second := get_marginal Small.lib [1; 0] Small.world in
  fst first = inl (AttributeError "param_dict")
  /\ fst second = inl (AttributeError "param_dict")
  /\ option_map (lookup [0]) (param_dic (self (snd first)))
     = option_map (lookup [0]) (param_dic (self (snd second)))
  /\ option_map (lookup [1]) (param_dic (self (snd first)))
     = option_map (lookup [1]) (param_dic (self (snd second)))
  /\ option_map (@length _) (param_dic (self (snd first))) = Some 2%nat
  /\ option_map (@length _) (param_dic (self (snd second))) = Some 2%nat.
Proof. repeat split. Qed.

(** ** Requests for invalid subsets *)

Lemma has_key_false (m : memo) (k : list Z) :
  lookup k m = None -> has_key m k = false.
Proof. unfold has_key. intros H. rewrite H. reflexivity. Qed.

(** A first index that the grid of tree 0 does not have stops the request
    at the lookup of its midpoints. *)
Lemma get_marginal_leading_index (lib : Lib) (w : World) (d : Z) (rest : list Z)
    (m : memo) (mt : list (list Q)) (mids : list (list (list Q))) :
  param_dic (self w) = Some m ->
  lookup [d] m = None ->
  all_midpoints (self w) = Some (mt :: mids) ->
  py_index mt d = None ->
  get_marginal lib (d :: rest) w = (inl IndexError, w).
Proof.
  intros Hm Hk Hg Hd.
  assert (Hgather : gather 0 [d] w = (inl IndexError, w)).
  { cbv [gather foldM bind getattr index lift ret].
    rewrite Hg. cbn [of_option py_index Z.leb Z.compare Z.to_nat nth_error].
    rewrite Hd. reflexivity. }
  assert (Ht : tree_body lib (d :: rest) [d] 1 None 0 w = (inl IndexError, w)).
  { unfold tree_body.
    unfold bind at 1. unfold getattr at 1. rewrite Hg. cbn [of_option].
    unfold bind at 1. unfold index at 1. cbn [lift of_option py_index Z.leb Z.compare Z.to_nat nth_error].
    apply bind_inl. exact Hgather. }
  assert (Hs : subset_body lib (d :: rest) 1 None [d] w = (inl IndexError, w)).
  { unfold subset_body. unfold bind at 1. unfold getattr at 1. rewrite Hm. simpl.
    rewrite (has_key_false _ _ Hk).
    unfold bind at 1. unfold getattr at 1. rewrite Hg.
    cbn [of_option length py_range foldM].
    apply bind_inl. exact Ht. }
  unfold get_marginal. cbn [length seq for_else].
  apply bind_inl. unfold order_body. apply bind_inl.
  rewrite combinations_1. cbn [map foldM].
  apply bind_inl. exact Hs.
Qed.

(** ** Failed requests and the memo *)

Lemma key_eqb_eq (a b : list Z) : key_eqb a b = true <-> a = b.
Proof.
  unfold key_eqb. destruct (list_eq_dec Z.eq_dec a b); split; intros H;
    try reflexivity; try assumption; try discriminate; contradiction.
Qed.

Lemma key_eqb_neq (a b : list Z) : a <> b -> key_eqb a b = false.
Proof.
  intros H. destruct (key_eqb a b) eqn:E; [| reflexivity].
  apply key_eqb_eq in E. contradiction.
Qed.

Lemma lookup_store_other (k key : list Z) (e : entry) (m : memo) :
  k <> key -> lookup key (store k e m) = lookup key m.
Proof.
  intros Hne. induction m as [| [k' e'] m IH]; simpl.
  - rewrite key_eqb_neq by congruence. reflexivity.
  - destruct (key_eqb k k') eqn:E; simpl.
    + apply key_eqb_eq in E. subst k'.
      rewrite key_eqb_neq by congruence. reflexivity.
    + destruct (key_eqb key k'); [reflexivity | exact IH].
Qed.

Lemma keeps_bind_never {A B : Type} (P : World -> Prop) (m : M A) (f : A -> M B) :
  keeps P m -> never_ok m -> keeps P (bind m f).
Proof.
  intros Hm Hn w H. unfold bind.
  specialize (Hm w H). destruct (Hn w) as [e He].
  destruct (m w) as [[e' | a] w']; simpl in *; [exact Hm | discriminate].
Qed.

Section Memo_frame.

Variables (key : list Z) (e : entry).






Lemma keeps_memo_get_MVC (P : World -> Prop) (k : list Z) : keeps P (memo_get_MVC k).
Proof.
  unfold memo_get_MVC.
  repeat (apply keeps_bind; [auto with keeps_db | intros ?]).
  auto with keeps_db.
Qed.


Variable lib : Lib.



Lemma keeps_fix_sample (P : World -> Prop) (dim_helper : list Z) (points : list Q)
    (s : list (option Q)) :
  keeps P (fix_sample dim_helper points s).
Proof.
  unfold fix_sample. apply keeps_foldM. intros s' j.
  repeat (apply keeps_bind; [auto with keeps_db | intros ?]).
  auto with keeps_db.
Qed.


Lemma keeps_gather (P : World -> Prop) (tree : Z) (dimensions : list Z) :
  keeps P (gather tree dimensions).
Proof.
  unfold gather. apply keeps_foldM. intros [[cm sz] dh] dim.
  repeat (apply keeps_bind; [auto with keeps_db | intros ?]).
  auto with keeps_db.
Qed.




End Memo_frame.




(** ** The point query *)

Lemma bind_reads {A B : Type} (m : M A) (f : A -> M B) (w : World) :
  reads_only m ->
  bind m f w = match fst (m w) with
               | inl e => (inl e, w)
               | inr a => f a w
               end.
Proof.
  intros H. unfold bind. specialize (H w).
  destruct (m w) as [[e | a] w']; simpl in *; subst; reflexivity.
Qed.

Lemma reads_only_getattr {A : Type} (attr : string) (f : fANOVA -> option A) :
  reads_only (getattr attr f).
Proof. intros w. reflexivity. Qed.

Lemma reads_only_index {A : Type} (l : list A) (i : Z) : reads_only (index l i).
Proof. intros w. reflexivity. Qed.

Lemma reads_only_lift {A : Type} (r : result A) : reads_only (lift r).
Proof. intros w. reflexivity. Qed.

Lemma reads_only_bind {A B : Type} (m : M A) (f : A -> M B) :
  reads_only m -> (forall a, reads_only (f a)) -> reads_only (bind m f).
Proof.
  intros Hm Hf w. rewrite bind_reads by exact Hm.
  destruct (fst (m w)); [reflexivity | apply Hf].
Qed.

(** C9.  The point query leaves the object and the record of trainings as
    they were; when it returns it has passed exactly one query vector to the
    forest, and when it raises it has passed none. *)
Theorem get_marginal_for_values_frame :
  forall (lib : Lib) (dimlist : list Z) (valuesToPredict : list Q) (w : World),
    self (snd (get_marginal_for_values lib dimlist valuesToPredict w)) = self w
    /\ trainings (snd (get_marginal_for_values lib dimlist valuesToPredict w))
       = trainings w
    /\ match fst (get_marginal_for_values lib dimlist valuesToPredict w) with
       | inr _ =>
           exists sample : list (option Q),
             queries (snd (get_marginal_for_values lib dimlist valuesToPredict w))
             = queries w ++ [sample]
       | inl _ =>
           queries (snd (get_marginal_for_values lib dimlist valuesToPredict w))
           = queries w
       end.
Proof.
  intros lib dimlist values w. unfold get_marginal_for_values.
  rewrite bind_reads by apply reads_only_getattr.
  destruct (fst (getattr "all_midpoints" all_midpoints w)) as [e | mids];
    [repeat split |].
  rewrite bind_reads by apply reads_only_index.
  destruct (fst (index mids 0 w)) as [e | m0]; [repeat split |].
  rewrite bind_reads.
  2:{ apply reads_only_foldM_index. intros s i.
      apply reads_only_bind; [apply reads_only_index | intros d].
      apply reads_only_bind; [apply reads_only_index | intros v].
      apply reads_only_lift. }
  match goal with |- context [fst (foldM ?b ?l ?s w)] =>
    destruct (fst (foldM b l s w)) as [e | vec] end; [repeat split |].
  cbv [bind predict getattr ret].
  destruct (the_forest (self w)) as [forest |]; simpl.
  - split; [reflexivity |]. split; [reflexivity |]. exists vec. reflexivity.
  - repeat split.
Qed.

(** On the small engine the point query for dimension 0 at 1/2 returns and
    queries the forest once. *)
Example get_marginal_for_values_small :
  fst (get_marginal_for_values Small.lib [0] [(1 # 2)%Q] Small.world)
    = inr (((0 + (1 + (1 # 2))) / 1)%Q, 0%Q)
  /\ queries (snd (get_marginal_for_values Small.lib [0] [(1 # 2)%Q] Small.world))
     = [[Some (1 # 2)%Q; None]].
Proof. split; reflexivity. Qed.

(** ** The ranking of the pairs *)

Lemma triple_compare_antisym (a b : Q * Z * Z) :
  triple_compare b a = CompOpp (triple_compare a b).
Proof.
  destruct a as [[ma a1] a2], b as [[mb b1] b2]. unfold triple_compare.
  rewrite <- (Qcompare_antisym ma mb), (Z.compare_antisym a1 b1), (Z.compare_antisym a2 b2).
  destruct (Qcompare ma mb); simpl; try reflexivity.
  destruct (Z.compare a1 b1); simpl; reflexivity.
Qed.

Lemma triple_geb_total (a b : Q * Z * Z) :
  triple_geb a b = false -> triple_geb b a = true.
Proof.
  unfold triple_geb. rewrite (triple_compare_antisym a b).
  destruct (triple_compare a b); simpl; congruence.
Qed.

Lemma triple_geb_descending (a b : Q * Z * Z) :
  triple_geb a b = true -> descending a b.
Proof.
  destruct a as [[ma a1] a2], b as [[mb b1] b2].
  unfold triple_geb, triple_compare, descending.
  destruct (Qcompare ma mb) eqn:Em.
  - apply Qeq_alt in Em.
    destruct (Z.compare a1 b1) eqn:E1.
    + apply Z.compare_eq in E1.
      destruct (Z.compare a2 b2) eqn:E2; intros H; try discriminate;
        right; (split; [exact Em |]); right; (split; [exact E1 |]).
      * apply Z.compare_eq in E2. lia.
      * apply Z.compare_gt_iff in E2. lia.
    + intros H. discriminate.
    + intros _. apply Z.compare_gt_iff in E1. right. split; [exact Em |]. left. exact E1.
  - intros H. discriminate.
  - intros _. left. apply Qgt_alt in Em. exact Em.
Qed.

Lemma insert_desc_perm (x : Q * Z * Z) (l : list (Q * Z * Z)) :
  Permutation (insert_desc x l) (x :: l).
Proof.
  induction l as [| y l IH]; simpl; [apply Permutation_refl |].
  destruct (triple_geb x y); [apply Permutation_refl |].
  apply perm_trans with (y :: x :: l); [apply perm_skip; exact IH | apply perm_swap].
Qed.

Lemma sorted_reverse_perm (l : list (Q * Z * Z)) : Permutation (sorted_reverse l) l.
Proof.
  induction l as [| x l IH]; simpl; [apply perm_nil |].
  apply perm_trans with (x :: sorted_reverse l);
    [apply insert_desc_perm | apply perm_skip; exact IH].
Qed.

Lemma insert_desc_hd (x y : Q * Z * Z) (l : list (Q * Z * Z)) :
  descending y x -> HdRel descending y l -> HdRel descending y (insert_desc x l).
Proof.
  intros Hyx H. destruct l as [| z l]; simpl.
  - constructor. exact Hyx.
  - destruct (triple_geb x z); constructor; [exact Hyx |].
    inversion H; subst. assumption.
Qed.

Lemma insert_desc_sorted (x : Q * Z * Z) (l : list (Q * Z * Z)) :
  Sorted descending l -> Sorted descending (insert_desc x l).
Proof.
  induction l as [| y l IH]; intros H; simpl.
  - constructor; constructor.
  - destruct (triple_geb x y) eqn:E.
    + constructor; [exact H |]. constructor. apply triple_geb_descending. exact E.
    + inversion H; subst.
      constructor; [apply IH; assumption |].
      apply insert_desc_hd; [| assumption].
      apply triple_geb_descending. apply triple_geb_total. exact E.
Qed.

Lemma sorted_reverse_sorted (l : list (Q * Z * Z)) :
  Sorted descending (sorted_reverse l).
Proof.
  induction l as [| x l IH]; simpl; [constructor |].
  apply insert_desc_sorted. exact IH.
Qed.

Lemma py_range_In (n : nat) : forall a x, In x (py_range a n) <-> a <= x < a + Z.of_nat n.
Proof.
  induction n as [| n IH]; intros a x; simpl py_range.
  - simpl. lia.
  - simpl In. rewrite IH. lia.
Qed.

Lemma pairs_of_range (n : nat) :
  forall s a b,
    In [a; b] (combinations (py_range s n) 2) <-> s <= a < b /\ b < s + Z.of_nat n.
Proof.
  induction n as [| n IH]; intros s a b.
  - simpl. lia.
  - cbn [py_range combinations]. rewrite in_app_iff, IH.
    rewrite combinations_1, map_map, in_map_iff.
    split.
    + intros [[d [Hd Hin]] | H].
      * inversion Hd; subst. apply py_range_In in Hin. lia.
      * lia.
    + intros [H1 H2].
      destruct (Z.eq_dec a s) as [-> | Hne].
      * left. exists b. split; [reflexivity |]. apply py_range_In. lia.
      * right. lia.
Qed.

(** C6.  On an engine of two or more parameters the top-N operation
    returns no pair, whatever [n] is: it raises what its first request, for
    the pair (0, 1), raises, and leaves the world as that request leaves
    it. *)
Theorem top_pairs_raise_at_the_first_pair :
  forall (lib : Lib) (n : Z) (w : World) (params : list Hyperparameter),
    cs_params (self w) = Some params ->
    (2 <= length params)%nat ->
    exists e : exn,
      fst (get_marginal lib [0; 1] w) = inl e
      /\ get_most_important_pairwise_marginals lib n w
         = (inl e, snd (get_marginal lib [0; 1] w)).
Proof.
  intros lib n w params Hp Hlen.
  destruct (get_marginal_never_ok lib [0; 1] w) as [e He].
  exists e. split; [exact He |].
  assert (Hg : get_marginal lib [0; 1] w = (inl e, snd (get_marginal lib [0; 1] w))).
  { destruct (get_marginal lib [0; 1] w) as [r w']. simpl in *. subst r. reflexivity. }
  destruct params as [| p0 [| p1 params]]; simpl in Hlen; try lia.
  unfold get_most_important_pairwise_marginals.
  unfold bind at 1. unfold getattr at 1. rewrite Hp. cbn [of_option length].
  cbn [py_range combinations].
  destruct (py_range (0 + 1 + 1) (length params)); cbn [combinations map app foldM];
    apply bind_inl; apply bind_inl; apply bind_inl; exact Hg.
Qed.

Lemma top_pairs_raise_at_the_first_pair_witness :
  cs_params (self Small.world)
    = Some [UniformFloatHyperparameter "a" 0 1; UniformFloatHyperparameter "b" 0 1]
  /\ fst (get_most_important_pairwise_marginals Small.lib 1 Small.world)
     = inl (AttributeError "param_dict").
Proof.
  split; [reflexivity |].
  destruct (top_pairs_raise_at_the_first_pair Small.lib 1 Small.world
              [UniformFloatHyperparameter "a" 0 1; UniformFloatHyperparameter "b" 0 1]
              eq_refl ltac:(simpl; lia)) as (e & He & H).
  change (@inl exn Q (AttributeError "param_dict") = inl e) in He.
  injection He as <-. rewrite H. reflexivity.
Defined.

(** * Further properties of the code *)

(** ** What a request may change *)

Lemma keeps_foldM_In {A S : Type} (P : World -> Prop) (body : S -> A -> M S)
    (xs : list A) :
  (forall s x, In x xs -> keeps P (body s x)) -> forall s, keeps P (foldM body xs s).
Proof.
  induction xs as [| x xs IH]; intros Hb s; simpl.
  - apply keeps_ret.
  - apply keeps_bind; [apply Hb; left; reflexivity |].
    intros s'. apply IH. intros s'' y Hy. apply Hb. right. exact Hy.
Qed.

Lemma keeps_several_any (P : World -> Prop) (dim_list dimensions : list Z) (k : nat)
    (i : Z) (points : list Q) (dim_helper : list Z) (interval_sizes : list (list Q))
    (marg : Q) (sample' : list (option Q)) (st : point_state) :
  keeps P (several dim_list dimensions k i points dim_helper interval_sizes
             marg sample' st).
Proof.
  unfold several.
  apply keeps_bind; [auto with keeps_db | intros cell].
  apply keeps_bind.
  { destruct (Nat.ltb 2 (length dimensions)); apply keeps_foldM; intros acc j;
      (apply keeps_bind; [auto with keeps_db | intros ?]);
      (apply keeps_bind; [apply keeps_memo_get_MVC | intros ?]);
      auto with keeps_db. }
  intros svc.
  apply keeps_bind; [auto with keeps_db | intros n].
  apply keeps_bind_never; [auto with keeps_db | apply never_ok_raise].
Qed.

Lemma combinations_incl {A : Type} (l : list A) :
  forall k c, In c (combinations l k) -> incl c l.
Proof.
  induction l as [| x t IH]; intros [| k] c H; simpl in H.
  - destruct H as [<- | []]. intros y [].
  - destruct H.
  - destruct H as [<- | []]. intros y [].
  - apply in_app_iff in H. destruct H as [H | H].
    + apply in_map_iff in H. destruct H as [c' [<- Hc']].
      intros y [<- | Hy]; [left; reflexivity |].
      right. apply (IH k c' Hc'). exact Hy.
    + intros y Hy. right. apply (IH (S k) c H). exact Hy.
Qed.

Lemma combinations_length {A : Type} (l : list A) :
  forall k c, In c (combinations l k) -> length c = k.
Proof.
  induction l as [| x t IH]; intros [| k] c H; simpl in H.
  - destruct H as [<- | []]. reflexivity.
  - destruct H.
  - destruct H as [<- | []]. reflexivity.
  - apply in_app_iff in H. destruct H as [H | H].
    + apply in_map_iff in H. destruct H as [c' [<- Hc']].
      simpl. f_equal. apply (IH k c' Hc').
    + apply (IH (S k) c H).
Qed.

(** A property of the world that survives the writes to the memo under the
    keys [allowed] and the queries to the forest survives a request. *)
Section Request_frame.

Variable P : World -> Prop.
Variable allowed : list Z -> Prop.

Hypothesis P_store :
  forall (k : list Z) (e : entry) (w : World) (m : memo),
    allowed k -> param_dic (self w) = Some m -> P w ->
    P {| self := set_param_dic (store k e m) (self w);
         queries := queries w; trainings := trainings w |}.

Hypothesis P_query :
  forall (s : list (option Q)) (w : World),
    P w -> P {| self := self w; queries := queries w ++ [s];
                trainings := trainings w |}.

Lemma frame_memo_new (k : list Z) : allowed k -> keeps P (memo_new k).
Proof.
  intros Hk w H. unfold memo_new, bind, getattr, setattr.
  destruct (param_dic (self w)) as [m |] eqn:Em; simpl; [| exact H].
  apply P_store; assumption.
Qed.

Lemma frame_memo_set_Name (k : list Z) (n : string) :
  allowed k -> keeps P (memo_set_Name k n).
Proof.
  intros Hk w H. unfold memo_set_Name, bind, getattr, setattr, lift.
  destruct (param_dic (self w)) as [m |] eqn:Em; simpl; [| exact H].
  destruct (lookup k m); simpl; [| exact H].
  apply P_store; assumption.
Qed.

Lemma frame_memo_set_MVC (k : list Z) (v : Q) :
  allowed k -> keeps P (memo_set_MVC k v).
Proof.
  intros Hk w H. unfold memo_set_MVC, bind, getattr, setattr, lift.
  destruct (param_dic (self w)) as [m |] eqn:Em; simpl; [| exact H].
  destruct (lookup k m); simpl; [| exact H].
  apply P_store; assumption.
Qed.

Lemma frame_predict (s : list (option Q)) : keeps P (predict s).
Proof.
  intros w H. unfold predict, bind, getattr.
  destruct (the_forest (self w)); simpl; [apply P_query |]; exact H.
Qed.

Variable lib : Lib.

Lemma frame_single (dimensions : list Z) (tree dim i : Z) (marg : Q)
    (sample' : list (option Q)) (st : point_state) :
  allowed dimensions ->
  keeps P (single lib dimensions tree dim i marg sample' st).
Proof.
  intros Hk. unfold single.
  do 5 (apply keeps_bind; [auto with keeps_db | intros ?]).
  apply keeps_bind; [apply frame_memo_new; exact Hk | intros _].
  do 2 (apply keeps_bind; [auto with keeps_db | intros ?]).
  apply keeps_bind; [apply frame_memo_set_Name; exact Hk | intros _].
  apply keeps_bind; [apply frame_memo_set_MVC; exact Hk | intros _].
  auto with keeps_db.
Qed.

Lemma frame_point (dim_list dimensions : list Z) (k : nat) (tree : Z)
    (dim_helper : list Z) (interval_sizes : list (list Q))
    (st : point_state) (ip : Z * list Q) :
  (length dimensions = 1%nat -> allowed dimensions) ->
  keeps P (point lib dim_list dimensions k tree dim_helper interval_sizes st ip).
Proof.
  intros Hk. unfold point. destruct ip as [i points].
  apply keeps_bind; [apply keeps_fix_sample | intros sample'].
  apply keeps_bind; [apply frame_predict | intros pred].
  apply keeps_bind; [auto with keeps_db | intros marg].
  destruct (Nat.eqb (length dimensions) 1) eqn:E.
  - apply keeps_bind; [auto with keeps_db | intros dim].
    apply frame_single. apply Hk. apply Nat.eqb_eq. exact E.
  - apply keeps_several_any.
Qed.

Lemma frame_tree_body (dim_list dimensions : list Z) (k : nat)
    (tfe : option Q) (tree : Z) :
  (length dimensions = 1%nat -> allowed dimensions) ->
  keeps P (tree_body lib dim_list dimensions k tfe tree).
Proof.
  intros Hk. unfold tree_body.
  do 2 (apply keeps_bind; [auto with keeps_db | intros ?]).
  apply keeps_bind; [apply keeps_gather | intros [[cm sz] dh]].
  apply keeps_bind; [| intros st; auto with keeps_db].
  apply keeps_foldM. intros st ip. apply frame_point. exact Hk.
Qed.

Lemma frame_subset_body (dim_list : list Z) (k : nat) (tfe : option Q)
    (dimensions : list Z) :
  (length dimensions = 1%nat -> allowed dimensions) ->
  keeps P (subset_body lib dim_list k tfe dimensions).
Proof.
  intros Hk. unfold subset_body.
  apply keeps_bind; [auto with keeps_db | intros m].
  destruct (has_key m dimensions).
  - apply keeps_bind; [apply keeps_memo_get_MVC | intros _; auto with keeps_db].
  - apply keeps_bind; [auto with keeps_db | intros mids].
    apply keeps_foldM. intros s tree. apply frame_tree_body. exact Hk.
Qed.

Lemma frame_get_marginal (dim_list : list Z) :
  (forall d, In d dim_list -> allowed [d]) ->
  keeps P (get_marginal lib dim_list).
Proof.
  intros Hk. unfold get_marginal. apply keeps_for_else.
  - intros tfe k. unfold order_body.
    apply keeps_bind.
    + apply keeps_foldM_In. intros s c Hc. apply frame_subset_body.
      intros Hlen.
      destruct c as [| d [| d' c']]; try discriminate.
      apply Hk. apply (combinations_incl dim_list k [d] Hc). left. reflexivity.
    + intros tfe'. apply keeps_bind_never; [| apply never_ok_raise].
      unfold getattr_missing. auto with keeps_db.
  - intros tfe. unfold orelse. auto with keeps_db.
Qed.

End Request_frame.

(** X1.  A request never touches the grid, the forest, the parameters or
    the number of trees, and trains nothing; the queries it makes are added
    after those already recorded. *)
Theorem get_marginal_changes_memo_only :
  forall (lib : Lib) (dim_list : list Z) (w : World),
    let w' := snd (get_marginal lib dim_list w) in
    all_midpoints (self w') = all_midpoints (self w)
    /\ all_sizes (self w') = all_sizes (self w)
    /\ the_forest (self w') = the_forest (self w)
    /\ cs_params (self w') = cs_params (self w)
    /\ cs (self w') = cs (self w)
    /\ num_trees (self w') = num_trees (self w)
    /\ trainings w' = trainings w
    /\ exists q, queries w' = queries w ++ q.
Proof.
  intros lib dim_list w.
  apply (frame_get_marginal
           (fun w' =>
              all_midpoints (self w') = all_midpoints (self w)
              /\ all_sizes (self w') = all_sizes (self w)
              /\ the_forest (self w') = the_forest (self w)
              /\ cs_params (self w') = cs_params (self w)
              /\ cs (self w') = cs (self w)
              /\ num_trees (self w') = num_trees (self w)
              /\ trainings w' = trainings w
              /\ exists q, queries w' = queries w ++ q)
           (fun _ => True)).
  - intros k e w0 m _ _ H. simpl. exact H.
  - intros s w0 [H1 [H2 [H3 [H4 [H5 [H6 [H7 [q Hq]]]]]]]]. simpl.
    repeat (split; [assumption |]).
    exists (q ++ [s]). rewrite Hq, app_assoc. reflexivity.
  - intros d _. exact I.
  - repeat (split; [reflexivity |]). exists []. rewrite app_nil_r. reflexivity.
Qed.

(** X2.  The only keys a request adds to the memo are the one-element
    tuples of the dimensions it was asked for: no entry for a pair or a
    larger subset is ever stored. *)
Theorem get_marginal_adds_single_keys_only :
  forall (lib : Lib) (dim_list : list Z) (w : World) (m m' : memo) (key : list Z),
    param_dic (self w) = Some m ->
    lookup key m = None ->
    param_dic (self (snd (get_marginal lib dim_list w))) = Some m' ->
    lookup key m' <> None ->
    exists d, In d dim_list /\ key = [d].
Proof.
  intros lib dim_list w m m' key Hm Hl Hm' Hl'.
  assert (H : forall m1, param_dic (self (snd (get_marginal lib dim_list w))) = Some m1 ->
                         lookup key m1 <> None -> exists d, In d dim_list /\ key = [d]).
  { apply (frame_get_marginal
             (fun w' => forall m1, param_dic (self w') = Some m1 ->
                                   lookup key m1 <> None ->
                                   exists d, In d dim_list /\ key = [d])
             (fun k => exists d, In d dim_list /\ k = [d])).
    - intros k e w0 m0 Hk Hm0 H m1 Hm1 Hl1. simpl in Hm1.
      inversion Hm1; subst m1; clear Hm1.
      destruct (list_eq_dec Z.eq_dec k key) as [-> | Hne]; [exact Hk |].
      rewrite lookup_store_other in Hl1 by exact Hne.
      apply (H m0 Hm0 Hl1).
    - intros s w0 H m1 Hm1 Hl1. simpl in Hm1. apply (H m1 Hm1 Hl1).
    - intros d Hd. exists d. split; [exact Hd | reflexivity].
    - intros m1 Hm1 Hl1. rewrite Hm in Hm1. inversion Hm1; subst m1.
      contradiction. }
  apply (H m' Hm' Hl').
Qed.

Lemma get_marginal_adds_single_keys_only_witness :
  exists m' : memo,
    param_dic (self Small.world) = Some []
    /\ param_dic (self (snd (get_marginal Small.lib [0; 1] Small.world))) = Some m'
    /\ lookup [1] m' <> None
    /\ exists d, In d [0; 1] /\ [1] = [d].
Proof.
  eexists.
  split; [reflexivity |].
  split; [reflexivity |].
  split; [discriminate |].
  apply (get_marginal_adds_single_keys_only Small.lib [0; 1] Small.world [] _ [1]
           eq_refl eq_refl eq_refl).
  discriminate.
Defined.

(** ** Requests answered from the memo *)

Lemma foldM_fixed {A S : Type} (body : S -> A -> M S) (xs : list A) (s : S) (w : World) :
  (forall x, In x xs -> body s x w = (inr s, w)) ->
  foldM body xs s w = (inr s, w).
Proof.
  induction xs as [| x xs IH]; intros H; simpl.
  - reflexivity.
  - rewrite (bind_inr _ _ _ _ _ (H x (or_introl eq_refl))).
    apply IH. intros y Hy. apply H. right. exact Hy.
Qed.

Lemma subset_body_hit (lib : Lib) (dim_list : list Z) (k : nat) (tfe : option Q)
    (dimensions : list Z) (w : World) (m : memo) (e : entry) (v : Q) :
  param_dic (self w) = Some m ->
  lookup dimensions m = Some e ->
  MarginalVarianceContribution e = Some v ->
  subset_body lib dim_list k tfe dimensions w = (inr tfe, w).
Proof.
  intros Hm Hl Hv.
  cbv [subset_body memo_get_MVC bind getattr lift ret has_key].
  rewrite Hm. cbn [of_option]. rewrite Hl. cbn [of_option]. rewrite Hm.
  cbn [of_option]. rewrite Hl. cbn [of_option]. rewrite Hv. reflexivity.
Qed.

(** X3.  A request all of whose dimensions have a finished entry in the
    memo asks the forest nothing and changes nothing; it ends, as every
    request does, at [return self.param_dict]. *)
Theorem get_marginal_memo_hit :
  forall (lib : Lib) (dim_list : list Z) (w : World) (m : memo),
    dim_list <> [] ->
    param_dic (self w) = Some m ->
    (forall d, In d dim_list ->
       exists e v, lookup [d] m = Some e /\ MarginalVarianceContribution e = Some v) ->
    get_marginal lib dim_list w = (inl (AttributeError "param_dict"), w).
Proof.
  intros lib dim_list w m Hne Hm Hall.
  destruct dim_list as [| d rest]; [contradiction |].
  assert (Hf : foldM (subset_body lib (d :: rest) 1) (combinations (d :: rest) 1) None w
               = (inr None, w)).
  { apply foldM_fixed. intros c Hc.
    rewrite combinations_1 in Hc. apply in_map_iff in Hc.
    destruct Hc as [x [<- Hx]].
    destruct (Hall x Hx) as [e [v [Hl Hv]]].
    apply (subset_body_hit lib (d :: rest) 1 None [x] w m e v Hm Hl Hv). }
  unfold get_marginal. cbn [length seq for_else].
  apply bind_inl. unfold order_body.
  rewrite (bind_inr _ _ _ _ _ Hf). reflexivity.
Qed.

Lemma get_marginal_memo_hit_witness :
  [0; 0] <> []
  /\ get_marginal Small.lib [0; 0] Small.warm
     = (inl (AttributeError "param_dict"), Small.warm).
Proof.
  split; [discriminate |].
  eapply get_marginal_memo_hit.
  - discriminate.
  - reflexivity.
  - intros d [<- | [<- | []]]; eexists; eexists; split; reflexivity.
Defined.

(** ** The ranking, as it runs *)

Lemma select_nil (n : Z) : select n [] = [].
Proof.
  unfold select, py_slice_to. simpl.
  destruct (0 <=? n); rewrite firstn_nil; reflexivity.
Qed.

Lemma combinations_range_small (d : nat) :
  (d < 2)%nat -> combinations (py_range 0 d) 2 = [].
Proof.
  intros H. destruct d as [| [| d]]; [reflexivity | reflexivity | lia].
Qed.

Lemma combinations_0 {A : Type} (l : list A) : combinations l 0 = [[]].
Proof. destruct l; reflexivity. Qed.

Lemma combinations_range_first (d : nat) :
  exists others, combinations (py_range 0 (S (S d))) 2 = [0; 1] :: others.
Proof.
  cbn [py_range combinations]. rewrite combinations_0. simpl.
  eexists. reflexivity.
Qed.

(** X4.  The top-N operation returns only for an engine of fewer than two
    parameters, and then returns the empty list without a query; with two
    or more parameters it raises, whatever [n] is. *)
Theorem top_pairs_return_only_without_pairs :
  forall (lib : Lib) (n : Z) (w : World) (params : list Hyperparameter),
    cs_params (self w) = Some params ->
    ((length params < 2)%nat ->
       get_most_important_pairwise_marginals lib n w = (inr [], w))
    /\ ((2 <= length params)%nat ->
          exists e, fst (get_most_important_pairwise_marginals lib n w) = inl e).
Proof.
  intros lib n w params Hp. split; intros Hlen.
  - cbv [get_most_important_pairwise_marginals bind getattr].
    rewrite Hp. cbn [of_option].
    rewrite combinations_range_small by exact Hlen.
    cbn [foldM ret]. rewrite select_nil. reflexivity.
  - destruct params as [| p0 [| p1 params]]; simpl in Hlen; try lia.
    destruct (combinations_range_first (length params)) as [others E].
    unfold get_most_important_pairwise_marginals.
    unfold bind at 1. unfold getattr at 1. rewrite Hp. cbn [of_option length].
    rewrite E. revert w Hp.
    assert (Hn : forall f : list (Q * Z * Z) -> M (list (Z * Z)),
              never_ok
                (bind (foldM (fun pairwise_marginals combi =>
                                pairwise_marginal_performance <- get_marginal lib combi ;;
                                c0 <- index combi 0 ;;
                                c1 <- index combi 1 ;;
                                ret (pairwise_marginals
                                       ++ [(pairwise_marginal_performance, c0, c1)]))
                             ([0; 1] :: others) []) f)).
    { intros f. apply never_ok_bind_l. cbn [foldM].
      apply never_ok_bind_l. apply never_ok_bind_l. apply get_marginal_never_ok. }
    intros w _. apply Hn.
Qed.

Lemma top_pairs_return_only_without_pairs_witness :
  cs_params (self Small.world)
    = Some [UniformFloatHyperparameter "a" 0 1; UniformFloatHyperparameter "b" 0 1]
  /\ exists e, fst (get_most_important_pairwise_marginals Small.lib 10 Small.world)
               = inl e.
Proof.
  split; [reflexivity |].
  apply (top_pairs_return_only_without_pairs Small.lib 10 Small.world
           [UniformFloatHyperparameter "a" 0 1; UniformFloatHyperparameter "b" 0 1]
           eq_refl).
  simpl. lia.
Defined.

Lemma firstn_In' {A : Type} (n : nat) (l : list A) (x : A) :
  In x (firstn n l) -> In x l.
Proof.
  intros H. rewrite <- (firstn_skipn n l). apply in_or_app. left. exact H.
Qed.

(** X5.  Whatever [n] is, every pair that the selection of lines 314-315
    returns is the pair of one of the triples it was given; a negative [n]
    drops the last [-n] pairs of the ranking instead of returning none. *)
Theorem select_returns_given_pairs :
  forall (n : Z) (pairwise_marginals : list (Q * Z * Z)),
    (forall p1 p2, In (p1, p2) (select n pairwise_marginals) ->
       exists marginal, In (marginal, p1, p2) pairwise_marginals)
    /\ (n < 0 ->
        length (select n pairwise_marginals)
        = Z.to_nat (Z.of_nat (length pairwise_marginals) + n)).
Proof.
  intros n l. split.
  - intros p1 p2 H. unfold select in H. apply in_map_iff in H.
    destruct H as [[[m q1] q2] [Heq Hin]]. inversion Heq; subst.
    exists m. apply (Permutation_in _ (sorted_reverse_perm l)).
    unfold py_slice_to in Hin.
    destruct (0 <=? n); apply firstn_In' in Hin; exact Hin.
  - intros Hn. unfold select, py_slice_to.
    destruct (0 <=? n) eqn:E; [apply Z.leb_le in E; lia |].
    rewrite length_map, length_firstn.
    rewrite (Permutation_length (sorted_reverse_perm l)). lia.
Qed.

Lemma select_returns_given_pairs_witness :
  -1 < 0
  /\ select (-1) [(1%Q, 0, 1); (3%Q, 0, 2); (2%Q, 1, 2)] = [(0, 2); (1, 2)]
  /\ length (select (-1) [(1%Q, 0, 1); (3%Q, 0, 2); (2%Q, 1, 2)]) = 2%nat.
Proof.
  split; [lia |].
  split; [reflexivity |].
  apply (select_returns_given_pairs (-1) [(1%Q, 0, 1); (3%Q, 0, 2); (2%Q, 1, 2)]). lia.
Defined.

(** ** The grid of a tree, as the constructor computes it *)

Lemma py_index_nat {A : Type} (l : list A) (n : nat) :
  py_index l (Z.of_nat n) = nth_error l n.
Proof.
  unfold py_index.
  destruct (0 <=? Z.of_nat n) eqn:E; [| apply Z.leb_gt in E; lia].
  rewrite Nat2Z.id. reflexivity.
Qed.

Lemma skipn_nth_error {A : Type} (l : list A) :
  forall (i : nat) (x : A), nth_error l i = Some x -> skipn i l = x :: skipn (S i) l.
Proof.
  induction l as [| y l IH]; intros [| i] x H; simpl in *; try discriminate.
  - inversion H. reflexivity.
  - apply IH. exact H.
Qed.

Lemma cells_from_spec (half : Q) (params : list Hyperparameter)
    (tree_split_values : list (list Q)) :
  forall (i : nat) (midpoints sizes : list (list Q)),
    Grid.cells_from half (val_mins params) (Z.of_nat i) tree_split_values midpoints sizes
    = if (length tree_split_values <=? length params - i)%nat then
        inr (midpoints
               ++ map (fun c => match fst c with
                                | CategoricalHyperparameter _ _ => snd c
                                | UniformFloatHyperparameter _ _ _ =>
                                    Grid.midpoint_p half (snd c)
                                end)
                    (combine (skipn i params) tree_split_values),
             sizes
               ++ map (fun c => match fst c with
                                | CategoricalHyperparameter _ _ => np_ones (length (snd c))
                                | UniformFloatHyperparameter _ _ _ => Grid.size (snd c)
                                end)
                    (combine (skipn i params) tree_split_values))
      else inl IndexError.
Proof.
  induction tree_split_values as [| v rest IH]; intros i ms ss.
  - simpl. destruct (skipn i params); simpl; rewrite !app_nil_r; reflexivity.
  - cbn [Grid.cells_from]. rewrite py_index_nat. unfold val_mins at 1.
    rewrite nth_error_map.
    destruct (nth_error params i) as [hp |] eqn:E.
    + assert (Hi : (i < length params)%nat)
        by (apply nth_error_Some; congruence).
      rewrite (skipn_nth_error params i hp E).
      replace (Z.of_nat i + 1) with (Z.of_nat (S i)) by lia.
      cbn [option_map length combine map fst snd].
      destruct hp as [name choices | name lower upper]; rewrite IH;
        replace (length rest <=? length params - S i)%nat
          with (S (length rest) <=? length params - i)%nat
          by (destruct (Nat.leb_spec (S (length rest)) (length params - i));
              destruct (Nat.leb_spec (length rest) (length params - S i)); lia);
        destruct (S (length rest) <=? length params - i)%nat;
        rewrite <- ?app_assoc; reflexivity.
    + apply nth_error_None in E. cbn [option_map].
      destruct (Nat.leb_spec (length (v :: rest)) (length params - i));
        [simpl in *; lia | reflexivity].
Qed.

Lemma augment_from_IndexError (val_mins val_maxs : Grid.bounds)
    (tree_split_values : list (list Q)) (idx : list Z) :
  forall (i : Z) (var_splits : list (list Q)) (e : exn),
    Grid.augment_from val_mins val_maxs tree_split_values i idx var_splits = inl e ->
    e = IndexError.
Proof.
  induction idx as [| j idx IH]; intros i acc e H; simpl in H; [discriminate |].
  destruct (py_index val_mins i) as [[lo |] |].
  - destruct (py_index tree_split_values i); [| congruence].
    destruct (py_index val_maxs i) as [[hi |] |]; try congruence.
    apply (IH _ _ _ H).
  - destruct (py_index tree_split_values i); [| congruence].
    apply (IH _ _ _ H).
  - congruence.
Qed.

Lemma augment_from_ok (params : list Hyperparameter) (tree_split_values : list (list Q))
    (n : nat) :
  forall (a : Z) (i : nat) (var_splits : list (list Q)),
    (i + n <= length params)%nat ->
    (i + n <= length tree_split_values)%nat ->
    exists r,
      Grid.augment_from (val_mins params) (val_maxs params) tree_split_values
        (Z.of_nat i) (py_range a n) var_splits = inr r.
Proof.
  induction n as [| n IH]; intros a i acc Hp Ht; simpl.
  - eexists. reflexivity.
  - rewrite !py_index_nat. unfold val_mins at 1, val_maxs at 1.
    rewrite !nth_error_map.
    destruct (nth_error params i) as [hp |] eqn:E;
      [| apply nth_error_None in E; lia].
    destruct (nth_error tree_split_values i) as [raw |] eqn:Er;
      [| apply nth_error_None in Er; lia].
    replace (Z.of_nat i + 1) with (Z.of_nat (S i)) by lia.
    destruct hp as [name choices | name lower upper]; cbn [option_map];
      apply IH; lia.
Qed.

(** X6.  For a tree with no more dimensions than the configuration space,
    the grid of the tree is computed dimension by dimension from the tree's
    own thresholds: a categorical dimension keeps its values as midpoints,
    each with size 1, and a continuous dimension gets the scaled sums and
    the differences of its consecutive raw thresholds.  The bounds of the
    parameters play no part in the result. *)
Theorem tree_grid_by_dimension :
  forall (half : Q) (params : list Hyperparameter) (tree_split_values : list (list Q)),
    (length tree_split_values <= length params)%nat ->
    Grid.tree_grid half (val_mins params) (val_maxs params) tree_split_values
    = inr (map (fun c => match fst c with
                         | CategoricalHyperparameter _ _ => snd c
                         | UniformFloatHyperparameter _ _ _ => Grid.midpoint_p half (snd c)
                         end)
             (combine params tree_split_values),
           map (fun c => match fst c with
                         | CategoricalHyperparameter _ _ => np_ones (length (snd c))
                         | UniformFloatHyperparameter _ _ _ => Grid.size (snd c)
                         end)
             (combine params tree_split_values)).
Proof.
  intros half params tsv Hlen. unfold Grid.tree_grid, Grid.augment.
  destruct (augment_from_ok params tsv (length tsv) 0 0 [] Hlen (le_n _)) as [r Hr].
  change (Z.of_nat 0) with 0 in Hr. rewrite Hr.
  change 0 with (Z.of_nat 0). rewrite cells_from_spec.
  rewrite Nat.sub_0_r.
  destruct (Nat.leb_spec (length tsv) (length params)); [| lia].
  reflexivity.
Qed.

Lemma tree_grid_by_dimension_witness :
  Nat.le (length [[1 # 4; 3 # 4]; [0; 1; 2]]%Q)
    (length [UniformFloatHyperparameter "a" 0 1;
             CategoricalHyperparameter "c" ["x"; "y"; "z"]%string])
  /\ Grid.tree_grid (1 # 2)
       (val_mins [UniformFloatHyperparameter "a" 0 1;
                  CategoricalHyperparameter "c" ["x"; "y"; "z"]%string])
       (val_maxs [UniformFloatHyperparameter "a" 0 1;
                  CategoricalHyperparameter "c" ["x"; "y"; "z"]%string])
       [[1 # 4; 3 # 4]; [0; 1; 2]]%Q
     = inr ([[(1 # 2) * ((3 # 4) + (1 # 4))]; [0; 1; 2]],
            [[(3 # 4) - (1 # 4)]; [1; 1; 1]])%Q.
Proof.
  split; [unfold Nat.le, Nat.lt; simpl; lia |].
  apply (tree_grid_by_dimension (1 # 2)
           [UniformFloatHyperparameter "a" 0 1;
            CategoricalHyperparameter "c" ["x"; "y"; "z"]%string]
           [[1 # 4; 3 # 4]; [0; 1; 2]]%Q).
  simpl. lia.
Defined.

(** X7.  A tree with more dimensions than the configuration space has
    parameters makes the grid builder raise IndexError. *)
Theorem tree_grid_too_many_dimensions :
  forall (half : Q) (params : list Hyperparameter) (tree_split_values : list (list Q)),
    (length params < length tree_split_values)%nat ->
    Grid.tree_grid half (val_mins params) (val_maxs params) tree_split_values
    = inl IndexError.
Proof.
  intros half params tsv Hlen. unfold Grid.tree_grid.
  destruct (Grid.augment (val_mins params) (val_maxs params) tsv) as [e | r] eqn:E.
  - unfold Grid.augment in E. apply augment_from_IndexError in E. subst e. reflexivity.
  - change 0 with (Z.of_nat 0). rewrite cells_from_spec.
    rewrite Nat.sub_0_r.
    destruct (Nat.leb_spec (length tsv) (length params)); [lia | reflexivity].
Qed.

Lemma tree_grid_too_many_dimensions_witness :
  Nat.lt (length [UniformFloatHyperparameter "a" 0 1]) (length [[1 # 2]; [1 # 2]]%Q)
  /\ Grid.tree_grid (1 # 2) (val_mins [UniformFloatHyperparameter "a" 0 1])
       (val_maxs [UniformFloatHyperparameter "a" 0 1]) [[1 # 2]; [1 # 2]]%Q
     = inl IndexError.
Proof.
  split; [unfold Nat.le, Nat.lt; simpl; lia |].
  apply (tree_grid_too_many_dimensions (1 # 2) [UniformFloatHyperparameter "a" 0 1]
           [[1 # 2]; [1 # 2]]%Q).
  simpl. lia.
Defined.







(** ** The constructor *)

Lemma keeps_setattr (P : World -> Prop) (f : fANOVA -> fANOVA) :
  (forall w, P w ->
     P {| self := f (self w); queries := queries w; trainings := trainings w |}) ->
  keeps P (setattr f).
Proof. intros H w HP. apply H. exact HP. Qed.

Lemma keeps_config_space (P : World -> Prop) (a : Args.t) : keeps P (config_space a).
Proof.
  unfold config_space.
  destruct (Args.cs a); [auto with keeps_db |].
  destruct (Args.X a) as [X |]; [| auto with keeps_db].
  destruct (Args.Y a); [| auto with keeps_db].
  destruct X; [auto with keeps_db |].
  apply keeps_foldM. intros c i.
  repeat (apply keeps_bind; [auto with keeps_db | intros ?]).
  auto with keeps_db.
Qed.

Lemma keeps_check_data (P : World -> Prop) (a : Args.t) (params : list Hyperparameter) :
  keeps P (check_data a params).
Proof.
  unfold check_data.
  apply keeps_bind; [auto with keeps_db | intros X].
  destruct (negb (Nat.eqb (shape1 X) (length params))); [auto with keeps_db |].
  apply keeps_foldM. intros u i.
  apply keeps_bind; [auto with keeps_db | intros hp].
  apply keeps_bind; [auto with keeps_db | intros col].
  destruct hp as [name choices | name lower upper].
  - destruct (Nat.ltb (length choices) (len_set col)); [auto with keeps_db |].
    destruct (Nat.ltb (len_set col) (length choices)); auto with keeps_db.
  - apply keeps_bind; [auto with keeps_db | intros hi].
    destruct (Qgtb hi upper); [auto with keeps_db |].
    apply keeps_bind; [auto with keeps_db | intros lo].
    destruct (Qgtb lo lower); auto with keeps_db.
Qed.

Lemma keeps_train (P : World -> Prop) (lib : Lib) (a : Args.t) :
  (forall w t, P w ->
     P {| self := self w; queries := queries w; trainings := t |}) ->
  keeps P (train lib a).
Proof.
  intros HP. unfold train.
  destruct (Args.forest a); [auto with keeps_db |].
  destruct (Args.X a) as [X |]; [| auto with keeps_db].
  destruct (Args.Y a) as [Y |]; [| auto with keeps_db].
  apply keeps_bind.
  - apply keeps_foldM. intros data i.
    repeat (apply keeps_bind; [auto with keeps_db | intros ?]).
    auto with keeps_db.
  - intros data w H. simpl. apply HP. exact H.
Qed.

Lemma keeps_train_given (P : World -> Prop) (lib : Lib) (a : Args.t) (f : Forest) :
  Args.forest a = Some f -> keeps P (train lib a).
Proof. intros H. unfold train. rewrite H. auto with keeps_db. Qed.

Lemma keeps_build_grid (P : World -> Prop) (half : Q) (params : list Hyperparameter)
    (forest_split_values : list (list (list Q))) :
  (forall w o, P w ->
     P {| self := o; queries := queries w; trainings := trainings w |}) ->
  keeps P (build_grid half params forest_split_values).
Proof.
  intros HP. unfold build_grid. apply keeps_foldM. intros u tsv.
  apply keeps_bind; [auto with keeps_db | intros [midpoints sizes]].
  apply keeps_bind; [auto with keeps_db | intros am].
  apply keeps_bind; [apply keeps_setattr; intros w H; apply HP; exact H | intros _].
  apply keeps_bind; [auto with keeps_db | intros az].
  apply keeps_setattr. intros w H. apply HP. exact H.
Qed.

(** A property of the queries and trainings only survives the constructor
    as soon as it survives the training step. *)
Lemma keeps_init (P : World -> Prop) (half : Q) (lib : Lib) (a : Args.t) :
  (forall w o, P w ->
     P {| self := o; queries := queries w; trainings := trainings w |}) ->
  keeps P (train lib a) ->
  keeps P (init half lib a).
Proof.
  intros HP Ht. unfold init.
  assert (Hs : forall f, keeps P (setattr f))
    by (intros f; apply keeps_setattr; intros w H; apply HP; exact H).
  apply keeps_bind; [apply Hs | intros _].
  apply keeps_bind; [apply keeps_config_space | intros c].
  apply keeps_bind; [apply Hs | intros _].
  apply keeps_bind; [apply Hs | intros _].
  apply keeps_bind; [auto with keeps_db | intros params].
  apply keeps_bind; [apply keeps_check_data | intros _].
  apply keeps_bind; [exact Ht | intros forest].
  apply keeps_bind; [apply Hs | intros _].
  apply keeps_bind; [apply Hs | intros _].
  apply keeps_bind; [apply Hs | intros _].
  apply keeps_bind; [apply Hs | intros _].
  apply keeps_build_grid. exact HP.
Qed.

(** X10.  The constructor never asks the forest for a prediction, and when
    it is given a forest it trains none, whether it completes or raises. *)
Theorem construct_queries_nothing :
  forall (half : Q) (lib : Lib) (a : Args.t) (w : World),
    queries (snd (construct half lib a w)) = queries w
    /\ (forall f, Args.forest a = Some f ->
          trainings (snd (construct half lib a w)) = trainings w).
Proof.
  intros half lib a w. unfold construct. split.
  - apply (keeps_init (fun w' => queries w' = queries w) half lib a).
    + intros w0 o H. exact H.
    + apply keeps_train. intros w0 t H. exact H.
    + reflexivity.
  - intros f Hf.
    apply (keeps_init (fun w' => trainings w' = trainings w) half lib a).
    + intros w0 o H. exact H.
    + apply (keeps_train_given _ lib a f Hf).
    + reflexivity.
Qed.



(** X12.  When the number of columns of [X] differs from the number of
    parameters of the ConfigSpace the constructor raises the RuntimeError of
    line 68, before training anything. *)
Theorem init_with_wrong_width_raises :
  forall (half : Q) (lib : Lib) (a : Args.t) (w : World)
         (c : list Hyperparameter) (X : list (list Q)),
    Args.cs a = Some c ->
    Args.X a = Some X ->
    shape1 X <> length c ->
    fst (construct half lib a w)
      = inl (RuntimeError "Number of parameters in config space do not match input X")
    /\ trainings (snd (construct half lib a w)) = trainings w
    /\ the_forest (self (snd (construct half lib a w))) = None.
Proof.
  intros half lib a w c X Hc HX Hne.
  unfold construct, init, config_space, check_data.
  rewrite Hc. cbv [bind setattr ret getattr lift]. cbn [self cs_params set_cs_params of_option].
  rewrite HX. cbn [of_option].
  destruct (Nat.eqb (shape1 X) (length c)) eqn:E;
    [apply Nat.eqb_eq in E; contradiction |].
  repeat split.
Qed.

Lemma init_with_wrong_width_raises_witness :
  shape1 [[0; 0]; [1; 1]]%Q <> length [UniformFloatHyperparameter "a" 0 1]
  /\ fst (construct (1 # 2) Small.lib
            {| Args.X := Some [[0; 0]; [1; 1]]%Q; Args.Y := Some [1; 3]%Q;
               Args.cs := Some [UniformFloatHyperparameter "a" 0 1];
               Args.forest := None;
               Args.num_trees := 1; Args.seed := None; Args.bootstrapping := true;
               Args.points_per_tree := None; Args.max_features := None |}
            Small.nothing)
     = inl (RuntimeError "Number of parameters in config space do not match input X").
Proof.
  split; [discriminate |].
  apply (init_with_wrong_width_raises (1 # 2) Small.lib _ Small.nothing
           [UniformFloatHyperparameter "a" 0 1] [[0; 0]; [1; 1]]%Q);
    [reflexivity | reflexivity | discriminate].
Defined.





(** Data inside the interval of a parameter, with its smallest value above
    the lower bound, is refused. *)
Example check_data_refuses_inner_data :
  fst (check_data
         {| Args.X := Some [[1 # 4]; [1 # 2]]%Q; Args.Y := Some [0; 1]%Q;
            Args.cs := Some [UniformFloatHyperparameter "a" 0 1];
            Args.forest := None; Args.num_trees := 1; Args.seed := None;
            Args.bootstrapping := true; Args.points_per_tree := None;
            Args.max_features := None |}
         [UniformFloatHyperparameter "a" 0 1] Small.nothing)
  = inl (RuntimeError "Some sample values from X are not in the given interval").
Proof. reflexivity. Qed.

Lemma bind_ok_inv {A B : Type} (m : M A) (f : A -> M B) (w w' : World) (b : B) :
  bind m f w = (inr b, w') ->
  exists a w1, m w = (inr a, w1) /\ f a w1 = (inr b, w').
Proof.
  unfold bind. destruct (m w) as [[e | a] w1]; intros H; [discriminate |].
  exists a, w1. split; [reflexivity | exact H].
Qed.

Lemma tree_grid_dims (half : Q) (params : list Hyperparameter)
    (tree_split_values midpoints sizes : list (list Q)) :
  Grid.tree_grid half (val_mins params) (val_maxs params) tree_split_values
    = inr (midpoints, sizes) ->
  length midpoints = length tree_split_values.
Proof.
  unfold Grid.tree_grid.
  destruct (Grid.augment (val_mins params) (val_maxs params) tree_split_values);
    [discriminate |].
  change 0 with (Z.of_nat 0). rewrite cells_from_spec. rewrite Nat.sub_0_r.
  destruct (Nat.leb_spec (length tree_split_values) (length params)) as [Hle | Hgt];
    [| discriminate].
  intros Heq. inversion Heq; subst. cbn [app skipn].
  rewrite length_map, length_combine. lia.
Qed.

Lemma build_grid_ok (half : Q) (params : list Hyperparameter)
    (forest_split_values : list (list (list Q))) :
  forall (w w' : World) (am az : list (list (list Q))),
    all_midpoints (self w) = Some am ->
    all_sizes (self w) = Some az ->
    build_grid half params forest_split_values w = (inr tt, w') ->
    exists gm gz,
      all_midpoints (self w') = Some (am ++ gm)
      /\ all_sizes (self w') = Some (az ++ gz)
      /\ Forall2 (fun mt tsv => length mt = length tsv) gm forest_split_values
      /\ Forall2 (Forall2 (fun m s => length m = length s)) gm gz.
Proof.
  induction forest_split_values as [| tsv rest IH]; intros w w' am az Hm Hz H.
  - unfold build_grid in H. cbn [foldM ret] in H. inversion H; subst.
    exists [], []. rewrite !app_nil_r. repeat split; try assumption; constructor.
  - unfold build_grid in H. cbn [foldM] in H.
    apply bind_ok_inv in H. destruct H as ([] & w1 & Hbody & Hrest).
    apply bind_ok_inv in Hbody. destruct Hbody as ([ms ss] & w2 & Hg & Hbody).
    unfold lift in Hg. inversion Hg as [[Hgrid Hw2]]. subst w2. clear Hg.
    cbv [bind getattr setattr] in Hbody. rewrite Hm in Hbody.
    cbn [of_option self all_sizes set_all_midpoints] in Hbody. rewrite Hz in Hbody.
    cbn [of_option] in Hbody. inversion Hbody as [Hw1]. clear Hbody.
    destruct (IH w1 w' (am ++ [ms]) (az ++ [ss])) as (gm & gz & H1 & H2 & H3 & H4).
    + subst w1. reflexivity.
    + subst w1. reflexivity.
    + exact Hrest.
    + exists (ms :: gm), (ss :: gz).
      rewrite <- !app_assoc in H1, H2. cbn [app] in H1, H2.
      repeat split; try assumption.
      * constructor; [| exact H3]. apply (tree_grid_dims _ _ _ _ _ Hgrid).
      * constructor; [| exact H4]. apply (tree_grid_lengths _ _ _ _ _ _ Hgrid).
Qed.

(** X14.  When the constructor completes, the object holds the parameters,
    a forest, the number of trees it was given and an empty memo, and its
    grid has one entry per tree of the forest's split values; the entry of
    a tree has one list of midpoints and one list of sizes per dimension of
    the tree, of equal lengths. *)
Theorem construct_establishes :
  forall (half : Q) (lib : Lib) (a : Args.t) (w w' : World),
    construct half lib a w = (inr tt, w') ->
    exists params forest am az,
      cs (self w') = Some params
      /\ cs_params (self w') = Some params
      /\ the_forest (self w') = Some forest
      /\ num_trees (self w') = Some (Args.num_trees a)
      /\ param_dic (self w') = Some []
      /\ all_midpoints (self w') = Some am
      /\ all_sizes (self w') = Some az
      /\ Forall2 (fun mt tsv => length mt = length tsv) am
           (all_split_values forest (types_of params))
      /\ Forall2 (Forall2 (fun m s => length m = length s)) am az.
Proof.
  intros half lib a w w' H. unfold construct, init in H.
  apply bind_ok_inv in H. destruct H as ([] & w1 & H1 & H).
  unfold setattr in H1. inversion H1 as [Hw1]. clear H1.
  apply bind_ok_inv in H. destruct H as (c & w2 & H2 & H).
  assert (Hw2 : w2 = w1).
  { pose proof (proj2 (reads_only_keeps (config_space a))
                  (fun P => keeps_config_space P a) w1) as Hr.
    rewrite H2 in Hr. exact Hr. }
  subst w2. clear H2.
  apply bind_ok_inv in H. destruct H as ([] & w3 & H3 & H).
  unfold setattr in H3. inversion H3 as [Hw3]. clear H3.
  apply bind_ok_inv in H. destruct H as ([] & w4 & H4 & H).
  unfold setattr in H4. inversion H4 as [Hw4]. clear H4.
  apply bind_ok_inv in H. destruct H as (params & w5 & H5 & H).
  unfold getattr in H5. rewrite <- Hw4 in H5. cbn [self cs_params set_cs_params of_option] in H5.
  inversion H5 as [[Hp Hw5]]. subst params. clear H5.
  apply bind_ok_inv in H. destruct H as ([] & w6 & H6 & H).
  assert (Hw6 : w6 = w5).
  { pose proof (proj2 (reads_only_keeps (check_data a c))
                  (fun P => keeps_check_data P a c) w5) as Hr.
    rewrite H6 in Hr. exact Hr. }
  subst w6. clear H6.
  apply bind_ok_inv in H. destruct H as (forest & w7 & H7 & H).
  assert (Hw7 : self w7 = self w5).
  { pose proof (keeps_train (fun x => self x = self w5) lib a
                  (fun w0 t H0 => H0) w5 eq_refl) as Hr.
    rewrite H7 in Hr. exact Hr. }
  clear H7.
  apply bind_ok_inv in H. destruct H as ([] & w8 & H8 & H).
  unfold setattr in H8. inversion H8 as [Hw8]. clear H8.
  apply bind_ok_inv in H. destruct H as ([] & w9 & H9 & H).
  unfold setattr in H9. inversion H9 as [Hw9]. clear H9.
  apply bind_ok_inv in H. destruct H as ([] & w10 & H10 & H).
  unfold setattr in H10. inversion H10 as [Hw10]. clear H10.
  apply bind_ok_inv in H. destruct H as ([] & w11 & H11 & H).
  unfold setattr in H11. inversion H11 as [Hw11]. clear H11.
  assert (Hself : self w11
                  = {| num_trees := Some (Args.num_trees a); cs := Some c;
                       cs_params := Some c; the_forest := Some forest;
                       param_dic := Some []; all_midpoints := Some [];
                       all_sizes := Some [] |}).
  { subst w11 w10 w9 w8. cbn. rewrite Hw7. subst w5 w4 w3 w1. reflexivity. }
  destruct (build_grid_ok half c (all_split_values forest (types_of c)) w11 w' [] []) as (gm & gz & G1 & G2 & G3 & G4);
    [rewrite Hself; reflexivity | rewrite Hself; reflexivity | exact H |].
  assert (Hk : keeps (fun x => cs (self x) = Some c /\ cs_params (self x) = Some c
                              /\ the_forest (self x) = Some forest
                              /\ num_trees (self x) = Some (Args.num_trees a)
                              /\ param_dic (self x) = Some [])
                 (build_grid half c (all_split_values forest (types_of c)))).
  { unfold build_grid. apply keeps_foldM. intros u tsv.
    apply keeps_bind; [auto with keeps_db | intros [midpoints sizes]].
    apply keeps_bind; [auto with keeps_db | intros am0].
    apply keeps_bind; [apply keeps_setattr; intros w0 H0; exact H0 | intros _].
    apply keeps_bind; [auto with keeps_db | intros az0].
    apply keeps_setattr. intros w0 H0. exact H0. }
  specialize (Hk w11). rewrite H in Hk. cbn [snd] in Hk.
  destruct Hk as (K1 & K2 & K3 & K4 & K5);
    [rewrite Hself; repeat split |].
  exists c, forest, gm, gz. cbn [app] in G1, G2.
  repeat split; assumption.
Qed.

Lemma construct_establishes_witness :
  exists params forest am az,
    cs (self Small.world) = Some params
    /\ cs_params (self Small.world) = Some params
    /\ the_forest (self Small.world) = Some forest
    /\ num_trees (self Small.world) = Some (Args.num_trees Small.args)
    /\ param_dic (self Small.world) = Some []
    /\ all_midpoints (self Small.world) = Some am
    /\ all_sizes (self Small.world) = Some az
    /\ Forall2 (fun mt tsv => length mt = length tsv) am
         (all_split_values forest (types_of params))
    /\ Forall2 (Forall2 (fun m s => length m = length s)) am az.
Proof.
  apply (construct_establishes (1 # 2) Small.lib Small.args Small.nothing Small.world).
  reflexivity.
Defined.

(** ** The query vector of the point query *)

Lemma set_nth_spec {A : Type} (l : list A) :
  forall (p : nat) (v : A),
    (p < length l)%nat ->
    exists l',
      set_nth l p v = Some l'
      /\ length l' = length l
      /\ forall q, nth_error l' q = if Nat.eqb q p then Some v else nth_error l q.
Proof.
  induction l as [| x l IH]; intros p v Hp; simpl in Hp; [lia |].
  destruct p as [| p].
  - exists (v :: l). repeat split. intros [| q]; reflexivity.
  - destruct (IH p v ltac:(lia)) as (l' & H1 & H2 & H3).
    exists (x :: l'). cbn [set_nth]. rewrite H1. repeat split.
    + simpl. rewrite H2. reflexivity.
    + intros [| q]; [reflexivity |]. cbn [nth_error Nat.eqb]. apply H3.
Qed.

Lemma py_setitem_spec {A : Type} (l : list A) (d : Z) (v : A) :
  - Z.of_nat (length l) <= d < Z.of_nat (length l) ->
  exists l',
    py_setitem l d v = Some l'
    /\ length l' = length l
    /\ forall q, nth_error l' q
                 = if Nat.eqb q (Z.to_nat (d mod Z.of_nat (length l)))
                   then Some v else nth_error l q.
Proof.
  intros Hd. unfold py_setitem.
  destruct (0 <=? d) eqn:E0.
  - apply Z.leb_le in E0. rewrite Z.mod_small by lia.
    apply set_nth_spec. lia.
  - apply Z.leb_gt in E0.
    destruct (- Z.of_nat (length l) <=? d) eqn:E1; [| apply Z.leb_gt in E1; lia].
    replace (d mod Z.of_nat (length l)) with (Z.of_nat (length l) + d).
    + apply set_nth_spec. lia.
    + rewrite <- (Z.mod_small (Z.of_nat (length l) + d) (Z.of_nat (length l))) by lia.
      rewrite Z.add_comm. rewrite <- (Z.mul_1_l (Z.of_nat (length l))) at 1.
      rewrite Z.mod_add by lia. reflexivity.
Qed.

Section Point_query.

Variables (dimlist : list Z) (valuesToPredict : list Q) (n : nat) (w : World).

Hypothesis Hvalues : (length dimlist <= length valuesToPredict)%nat.
Hypothesis Hrange :
  Forall (fun d => - Z.of_nat n <= d < Z.of_nat n) dimlist.
Hypothesis Hdistinct :
  NoDup (map (fun d => Z.to_nat (d mod Z.of_nat n)) dimlist).

(** The state of the vector after the first [j] assignments. *)
Let filled (j : nat) (s : list (option Q)) : Prop :=
  length s = n
  /\ (forall i d v, (i < j)%nat -> nth_error dimlist i = Some d ->
        nth_error valuesToPredict i = Some v ->
        nth_error s (Z.to_nat (d mod Z.of_nat n)) = Some (Some v))
  /\ (forall p, (p < n)%nat ->
        (forall i d, (i < j)%nat -> nth_error dimlist i = Some d ->
           Z.to_nat (d mod Z.of_nat n) <> p) ->
        nth_error s p = Some None).

Lemma fill_loop (m : nat) :
  forall (j : nat) (s : list (option Q)),
    (j + m = length dimlist)%nat ->
    filled j s ->
    exists s',
      foldM (fun sample i =>
               d <- index dimlist i ;;
               v <- index valuesToPredict i ;;
               lift (of_option IndexError (py_setitem sample d (Some v))))
            (py_range (Z.of_nat j) m) s w = (inr s', w)
      /\ filled (j + m) s'.
Proof.
  induction m as [| m IH]; intros j s Hjm Hf.
  - exists s. rewrite Nat.add_0_r. split; [reflexivity | exact Hf].
  - destruct Hf as (Hlen & Hset & Hunset).
    destruct (nth_error dimlist j) as [d |] eqn:Ed;
      [| apply nth_error_None in Ed; lia].
    destruct (nth_error valuesToPredict j) as [v |] eqn:Ev;
      [| apply nth_error_None in Ev; lia].
    assert (Hd : - Z.of_nat n <= d < Z.of_nat n).
    { rewrite Forall_forall in Hrange. apply Hrange.
      apply (nth_error_In _ _ Ed). }
    destruct (py_setitem_spec s d (Some v)) as (s1 & H1 & H2 & H3);
      [rewrite Hlen; exact Hd |].
    rewrite Hlen in H2, H3.
    destruct (IH (S j) s1) as (s' & Hs' & Hf'); [lia | |].
    + split; [exact H2 |]. split.
      * intros i d' v' Hi Ed' Ev'. rewrite H3.
        destruct (Nat.eq_dec i j) as [-> | Hne].
        -- rewrite Ed in Ed'. rewrite Ev in Ev'.
           inversion Ed'; inversion Ev'; subst. rewrite Nat.eqb_refl. reflexivity.
        -- destruct (Nat.eqb_spec (Z.to_nat (d' mod Z.of_nat n))
                       (Z.to_nat (d mod Z.of_nat n))) as [Heq | _].
           ++ exfalso. apply Hne.
              apply (proj1 (NoDup_nth_error _) Hdistinct i j).
              ** rewrite length_map. apply nth_error_Some. congruence.
              ** rewrite !nth_error_map, Ed, Ed'. simpl. rewrite Heq. reflexivity.
           ++ apply (Hset i d' v'); [lia | assumption | assumption].
      * intros p Hp Hfree. rewrite H3.
        destruct (Nat.eqb_spec p (Z.to_nat (d mod Z.of_nat n))) as [Heq | _].
        -- exfalso. apply (Hfree j d); [lia | exact Ed | symmetry; exact Heq].
        -- apply Hunset; [exact Hp |]. intros i d' Hi Ed'.
           apply (Hfree i d'); [lia | exact Ed'].
    + exists s'. split.
      * cbn [py_range foldM].
        replace (Z.of_nat j + 1) with (Z.of_nat (S j)) by lia.
        cbv [bind index lift]. rewrite !py_index_nat, Ed, Ev.
        cbn [of_option]. rewrite H1. cbn [of_option]. exact Hs'.
      * replace (j + S m)%nat with (S j + m)%nat by lia. exact Hf'.
Qed.

Lemma fill_all :
  exists s',
    foldM (fun sample i =>
             d <- index dimlist i ;;
             v <- index valuesToPredict i ;;
             lift (of_option IndexError (py_setitem sample d (Some v))))
          (py_range 0 (length dimlist)) (repeat None n) w = (inr s', w)
    /\ filled (length dimlist) s'.
Proof.
  apply (fill_loop (length dimlist) 0 (repeat None n)); [reflexivity |].
  split; [apply repeat_length |]. split.
  - intros i d v Hi. lia.
  - intros p Hp _. apply nth_error_repeat. exact Hp.
Qed.

End Point_query.

(** X15.  For dimensions within the range of the first tree's grid
    (negative indices count from the end), each given once, and at least as
    many values as dimensions, the point query passes to the forest one
    vector of the grid's width that holds each value at its dimension and
    the sentinel everywhere else, and returns numpy's mean and standard
    deviation of the forest's answer. *)
Theorem get_marginal_for_values_query :
  forall (lib : Lib) (dimlist : list Z) (valuesToPredict : list Q) (w : World)
         (m0 : list (list Q)) (mids : list (list (list Q))) (forest : Forest),
    all_midpoints (self w) = Some (m0 :: mids) ->
    the_forest (self w) = Some forest ->
    (length dimlist <= length valuesToPredict)%nat ->
    Forall (fun d => - Z.of_nat (length m0) <= d < Z.of_nat (length m0)) dimlist ->
    NoDup (map (fun d => Z.to_nat (d mod Z.of_nat (length m0))) dimlist) ->
    exists vec : list (option Q),
      get_marginal_for_values lib dimlist valuesToPredict w
      = (inr (np_mean lib (marginal_mean_prediction forest vec),
              np_std lib (marginal_mean_prediction forest vec)),
         {| self := self w; queries := queries w ++ [vec];
            trainings := trainings w |})
      /\ length vec = length m0
      /\ (forall i d v, nth_error dimlist i = Some d ->
            nth_error valuesToPredict i = Some v ->
            nth_error vec (Z.to_nat (d mod Z.of_nat (length m0))) = Some (Some v))
      /\ (forall p, (p < length m0)%nat ->
            ~ In p (map (fun d => Z.to_nat (d mod Z.of_nat (length m0))) dimlist) ->
            nth_error vec p = Some None).
Proof.
  intros lib dimlist values w m0 mids forest Hm Hf Hlen Hrange Hnd.
  destruct (fill_all dimlist values (length m0) w Hlen Hrange Hnd)
    as (vec & Hfold & Hl & Hset & Hunset).
  exists vec. split; [| split; [exact Hl | split]].
  - unfold get_marginal_for_values.
    unfold bind at 1. unfold getattr at 1. rewrite Hm. cbn [of_option].
    unfold bind at 1. unfold index at 1.
    cbn [lift of_option py_index Z.leb Z.compare Z.to_nat nth_error].
    rewrite (bind_inr _ _ _ _ _ Hfold).
    cbv [bind predict getattr ret]. rewrite Hf. reflexivity.
  - intros i d v Ed Ev. apply (Hset i d v); [| exact Ed | exact Ev].
    apply nth_error_Some. congruence.
  - intros p Hp Hnot. apply Hunset; [exact Hp |].
    intros i d Hi Ed Heq. apply Hnot. apply in_map_iff.
    exists d. split; [exact Heq | apply (nth_error_In _ _ Ed)].
Qed.

Lemma get_marginal_for_values_query_witness :
  exists vec : list (option Q),
    fst (get_marginal_for_values Small.lib [-1] [(1 # 2)%Q] Small.world)
    = inr (np_mean Small.lib (marginal_mean_prediction Small.forest vec),
           np_std Small.lib (marginal_mean_prediction Small.forest vec))
    /\ nth_error vec 1 = Some (Some (1 # 2)%Q)
    /\ nth_error vec 0 = Some None.
Proof.
  destruct (get_marginal_for_values_query Small.lib [-1] [(1 # 2)%Q] Small.world
              _ _ Small.forest eq_refl eq_refl)
    as (vec & H1 & H2 & H3 & H4).
  - simpl. lia.
  - repeat constructor; simpl; lia.
  - repeat constructor. simpl. intros [].
  - exists vec. split; [rewrite H1; reflexivity |]. split.
    + apply (H3 0%nat (-1) (1 # 2)%Q); reflexivity.
    + apply H4; [simpl; lia |]. simpl. intros [H | []]. discriminate.
Defined.

Lemma fill_loop_short (dimlist : list Z) (valuesToPredict : list Q) (w : World)
    (m : nat) :
  forall (j : nat) (s : list (option Q)),
    (j <= length valuesToPredict < j + m)%nat ->
    foldM (fun sample i =>
             d <- index dimlist i ;;
             v <- index valuesToPredict i ;;
             lift (of_option IndexError (py_setitem sample d (Some v))))
          (py_range (Z.of_nat j) m) s w = (inl IndexError, w).
Proof.
  induction m as [| m IH]; intros j s Hj; [lia |].
  cbn [py_range foldM].
  replace (Z.of_nat j + 1) with (Z.of_nat (S j)) by lia.
  unfold bind at 1.
  cbv [bind index lift]. rewrite !py_index_nat.
  destruct (nth_error dimlist j) as [d |]; cbn [of_option]; [| reflexivity].
  destruct (nth_error valuesToPredict j) as [v |] eqn:Ev; cbn [of_option].
  - assert (j < length valuesToPredict)%nat by (apply nth_error_Some; congruence).
    destruct (py_setitem s d (Some v)) as [s1 |]; cbn [of_option]; [| reflexivity].
    apply IH. lia.
  - reflexivity.
Qed.

(** X16.  With fewer values than dimensions the point query raises
    IndexError before it asks the forest anything, and leaves the world as
    it was. *)
Theorem get_marginal_for_values_short_values :
  forall (lib : Lib) (dimlist : list Z) (valuesToPredict : list Q) (w : World)
         (m0 : list (list Q)) (mids : list (list (list Q))),
    all_midpoints (self w) = Some (m0 :: mids) ->
    (length valuesToPredict < length dimlist)%nat ->
    get_marginal_for_values lib dimlist valuesToPredict w = (inl IndexError, w).
Proof.
  intros lib dimlist values w m0 mids Hm Hlen.
  unfold get_marginal_for_values.
  unfold bind at 1. unfold getattr at 1. rewrite Hm. cbn [of_option].
  unfold bind at 1. unfold index at 1.
  cbn [lift of_option py_index Z.leb Z.compare Z.to_nat nth_error].
  apply bind_inl.
  apply (fill_loop_short dimlist values w (length dimlist) 0). lia.
Qed.

Lemma get_marginal_for_values_short_values_witness :
  get_marginal_for_values Small.lib [0; 1] [(1 # 2)%Q] Small.world
  = (inl IndexError, Small.world).
Proof.
  eapply get_marginal_for_values_short_values.
  - reflexivity.
  - simpl. lia.
Defined.

(** ** The cells of a subset *)

Lemma product_length {A : Type} (ls : list (list A)) :
  length (product ls) = fold_right (fun l k => (length l * k)%nat) 1%nat ls.
Proof.
  induction ls as [| l ls IH]; [reflexivity |].
  cbn [product fold_right]. rewrite <- IH.
  induction l as [| x l IHl]; [reflexivity |].
  cbn [flat_map length]. rewrite length_app, length_map, IHl. lia.
Qed.

Lemma product_points {A : Type} (ls : list (list A)) :
  forall c, In c (product ls) -> Forall2 (fun x l => In x l) c ls.
Proof.
  induction ls as [| l ls IH]; intros c H.
  - destruct H as [<- | []]. constructor.
  - cbn [product] in H. apply in_flat_map in H. destruct H as (x & Hx & H).
    apply in_map_iff in H. destruct H as (c' & <- & Hc').
    constructor; [exact Hx | apply IH; exact Hc'].
Qed.

(** X17.  The cells that lines 211-212 enumerate for a subset: their
    number is the product of the numbers of cells of the chosen dimensions,
    every cell takes its j-th coordinate from the j-th chosen dimension,
    and when each dimension has as many sizes as midpoints the list of
    interval sizes is as long as the list of grid points. *)
Theorem product_enumerates_the_cells :
  forall (combi_midpoints sizes : list (list Q)),
    length (product combi_midpoints)
      = fold_right (fun l k => (length l * k)%nat) 1%nat combi_midpoints
    /\ (forall points, In points (product combi_midpoints) ->
          Forall2 (fun x l => In x l) points combi_midpoints)
    /\ (Forall2 (fun m s => length m = length s) combi_midpoints sizes ->
          length (product sizes) = length (product combi_midpoints)).
Proof.
  intros cm sz. split; [apply product_length |].
  split; [apply product_points |].
  intros H. rewrite !product_length.
  induction H as [| m s cm' sz' Hms H IH]; [reflexivity |].
  cbn [fold_right]. rewrite IH, Hms. reflexivity.
Qed.

Lemma product_enumerates_the_cells_witness :
  Forall2 (fun m s => length m = length s)
    [[1 # 4; 3 # 4]; [1 # 2]]%Q [[1 # 2; 1 # 2]; [1]]%Q
  /\ length (product [[1 # 2; 1 # 2]; [1]]%Q)
     = length (product [[1 # 4; 3 # 4]; [1 # 2]]%Q).
Proof.
  assert (H : Forall2 (fun m s => length m = length s)
                [[1 # 4; 3 # 4]; [1 # 2]]%Q [[1 # 2; 1 # 2]; [1]]%Q)
    by (repeat constructor).
  split; [exact H |].
  apply (product_enumerates_the_cells [[1 # 4; 3 # 4]; [1 # 2]]%Q
           [[1 # 2; 1 # 2]; [1]]%Q). exact H.
Defined.

Lemma construct_queries_nothing_witness :
  Args.forest Small.args = Some Small.forest
  /\ queries (snd (construct (1 # 2) Small.lib Small.args Small.nothing))
     = queries Small.nothing
  /\ trainings (snd (construct (1 # 2) Small.lib Small.args Small.nothing))
     = trainings Small.nothing.
Proof.
  destruct (construct_queries_nothing (1 # 2) Small.lib Small.args Small.nothing)
    as [H1 H2].
  split; [reflexivity |]. split; [exact H1 |].
  apply (H2 Small.forest). reflexivity.
Defined.

(** ** The ConfigSpace built from the data, and the training *)

Lemma column_ok (X : list (list Q)) (i : nat) :
  Forall (fun row => (i < length row)%nat) X ->
  exists col, column X (Z.of_nat i) = inr col /\ length col = length X.
Proof.
  induction X as [| row X IH]; intros H.
  - exists []. split; reflexivity.
  - inversion H as [| ? ? Hrow HX]; subst.
    destruct (IH HX) as (col & Hc & Hl).
    destruct (nth_error row i) as [x |] eqn:E;
      [| apply nth_error_None in E; lia].
    exists (x :: col). cbn [column]. rewrite py_index_nat, E, Hc.
    split; [reflexivity | simpl; rewrite Hl; reflexivity].
Qed.

Lemma Qgtb_refl (x : Q) : Qgtb x x = false.
Proof.
  unfold Qgtb. apply negb_false_iff. apply Qle_bool_iff. apply Qle_refl.
Qed.

Section Data_space.

Variables (X : list (list Q)) (w : World).

Hypothesis X_rows : X <> [].
Hypothesis X_rectangular : Forall (fun row => length row = shape1 X) X.

(** The parameter that lines 58-61 build for column [i]. *)
Let built (i : nat) (hp : Hyperparameter) : Prop :=
  exists col lo hi,
    column X (Z.of_nat i) = inr col
    /\ np_min col = inr lo /\ np_max col = inr hi
    /\ hp = UniformFloatHyperparameter (NilZero.string_of_int (Z.to_int (Z.of_nat i))) lo hi.

Lemma column_of_data (i : nat) :
  (i < shape1 X)%nat ->
  exists col lo hi,
    column X (Z.of_nat i) = inr col /\ np_min col = inr lo /\ np_max col = inr hi.
Proof.
  intros Hi.
  destruct (column_ok X i) as (col & Hc & Hl).
  { eapply Forall_impl; [| exact X_rectangular]. simpl. intros row Hr. lia. }
  destruct col as [| x col].
  - destruct X; [contradiction | discriminate].
  - exists (x :: col). eexists. eexists. repeat split. exact Hc.
Qed.

Lemma space_loop (m : nat) :
  forall (j : nat) (c : list Hyperparameter),
    (j + m <= shape1 X)%nat ->
    exists c',
      foldM (fun c i =>
               col <- lift (column X i) ;;
               lo <- lift (np_min col) ;;
               hi <- lift (np_max col) ;;
               ret (c ++ [UniformFloatHyperparameter
                            (NilZero.string_of_int (Z.to_int i)) lo hi]))
            (py_range (Z.of_nat j) m) c w = (inr (c ++ c'), w)
      /\ length c' = m
      /\ forall k hp, nth_error c' k = Some hp -> built (j + k) hp.
Proof.
  induction m as [| m IH]; intros j c Hj.
  - exists []. rewrite app_nil_r. repeat split.
    intros [| k] hp H; discriminate.
  - destruct (column_of_data j ltac:(lia)) as (col & lo & hi & Hc & Hlo & Hhi).
    destruct (IH (S j)
                (c ++ [UniformFloatHyperparameter
                         (NilZero.string_of_int (Z.to_int (Z.of_nat j))) lo hi])
                ltac:(lia)) as (c' & Hf & Hl & Hb).
    exists (UniformFloatHyperparameter
              (NilZero.string_of_int (Z.to_int (Z.of_nat j))) lo hi :: c').
    split; [| split].
    + cbn [py_range foldM].
      replace (Z.of_nat j + 1) with (Z.of_nat (S j)) by lia.
      cbv [bind lift ret]. rewrite Hc, Hlo, Hhi.
      rewrite <- app_assoc in Hf. exact Hf.
    + simpl. rewrite Hl. reflexivity.
    + intros [| k] hp H.
      * inversion H; subst. rewrite Nat.add_0_r.
        exists col, lo, hi. repeat split; assumption.
      * replace (j + S k)%nat with (S j + k)%nat by lia. apply Hb. exact H.
Qed.

Lemma check_loop (a : Args.t) (c : list Hyperparameter) :
  (forall k hp, nth_error c k = Some hp -> built k hp) ->
  forall xs,
    (forall i, In i xs -> exists k, i = Z.of_nat k /\ (k < length c)%nat) ->
    foldM (fun (_ : unit) i =>
             hp <- index c i ;;
             col <- lift (column X i) ;;
             match hp with
             | UniformFloatHyperparameter _ lower upper =>
                 hi <- lift (np_max col) ;;
                 if Qgtb hi upper then
                   raise (RuntimeError "Some sample values from X are not in the given interval")
                 else
                   lo <- lift (np_min col) ;;
                   if Qgtb lo lower then
                     raise (RuntimeError "Some sample values from X are not in the given interval")
                   else ret tt
             | CategoricalHyperparameter _ choices =>
                 let unique_vals := len_set col in
                 if Nat.ltb (length choices) unique_vals then
                   raise (RuntimeError "There are some categoricals missing in the config space specification")
                 else if Nat.ltb unique_vals (length choices) then
                   raise (RuntimeError "There are too many categoricals specified in the config space")
                 else ret tt
             end)
          xs tt w = (inr tt, w).
Proof.
  intros Hb xs Hxs. apply foldM_fixed. intros i Hi.
  destruct (Hxs i Hi) as (k & -> & Hk).
  destruct (nth_error c k) as [hp |] eqn:E; [| apply nth_error_None in E; lia].
  destruct (Hb k hp E) as (col & lo & hi & Hc & Hlo & Hhi & ->).
  cbv [bind index lift ret]. rewrite py_index_nat, E. cbn [of_option].
  rewrite Hc, Hhi, Qgtb_refl, Hlo, Qgtb_refl. reflexivity.
Qed.

End Data_space.

(** X18.  Without a ConfigSpace, for a non-empty rectangular [X] and some
    [Y], the constructor builds one continuous parameter per column, named
    by the column's index and bounded by the column's minimum and maximum,
    and this space always passes the data check of lines 67-78. *)
Theorem data_space_passes_check :
  forall (a : Args.t) (X : list (list Q)) (Y : list Q) (w : World),
    Args.cs a = None ->
    Args.X a = Some X ->
    Args.Y a = Some Y ->
    X <> [] ->
    Forall (fun row => length row = shape1 X) X ->
    exists c,
      config_space a w = (inr c, w)
      /\ length c = shape1 X
      /\ (forall i hp, nth_error c i = Some hp ->
            exists col lo hi,
              column X (Z.of_nat i) = inr col
              /\ np_min col = inr lo /\ np_max col = inr hi
              /\ hp = UniformFloatHyperparameter
                        (NilZero.string_of_int (Z.to_int (Z.of_nat i))) lo hi)
      /\ check_data a c w = (inr tt, w).
Proof.
  intros a X Y w Hcs HX HY Hne Hrect.
  destruct (space_loop X w Hne Hrect (shape1 X) 0 []) as (c & Hf & Hl & Hb);
    [lia |].
  exists c. split; [| split; [exact Hl | split; [exact Hb |]]].
  - unfold config_space. rewrite Hcs, HX, HY.
    destruct X as [| row X']; [contradiction |]. exact Hf.
  - unfold check_data. rewrite HX.
    unfold bind at 1. cbn [lift of_option].
    rewrite Hl, Nat.eqb_refl. cbn [negb].
    apply (check_loop X w a c Hb).
    intros i Hi. apply py_range_In in Hi.
    exists (Z.to_nat i). split; lia.
Qed.

Lemma data_space_passes_check_witness :
  exists c,
    config_space
      {| Args.X := Some [[0; 2]; [1; 3]]%Q; Args.Y := Some [1; 3]%Q;
         Args.cs := None; Args.forest := None; Args.num_trees := 1;
         Args.seed := None; Args.bootstrapping := true;
         Args.points_per_tree := None; Args.max_features := None |}
      Small.nothing = (inr c, Small.nothing)
    /\ length c = 2%nat.
Proof.
  destruct (data_space_passes_check
              {| Args.X := Some [[0; 2]; [1; 3]]%Q; Args.Y := Some [1; 3]%Q;
                 Args.cs := None; Args.forest := None; Args.num_trees := 1;
                 Args.seed := None; Args.bootstrapping := true;
                 Args.points_per_tree := None; Args.max_features := None |}
              [[0; 2]; [1; 3]]%Q [1; 3]%Q Small.nothing
              eq_refl eq_refl eq_refl)
    as (c & H1 & H2 & _).
  - discriminate.
  - repeat constructor.
  - exists c. split; [exact H1 | exact H2].
Defined.

Lemma data_loop (X : list (list Q)) (Y : list Q) (w : World) (m : nat) :
  forall (j : nat) (data : list (list Q * Q)),
    (j + m = length Y)%nat ->
    (length Y <= length X)%nat ->
    foldM (fun data i =>
             x <- index X i ;;
             y <- index Y i ;;
             ret (data ++ [(x, y)]))
          (py_range (Z.of_nat j) m) data w
    = (inr (data ++ combine (skipn j X) (skipn j Y)), w).
Proof.
  induction m as [| m IH]; intros j data Hj Hlen.
  - cbn [py_range foldM ret]. rewrite Nat.add_0_r in Hj. subst j.
    rewrite (skipn_all Y). destruct (skipn (length Y) X); simpl;
      rewrite app_nil_r; reflexivity.
  - destruct (nth_error X j) as [x |] eqn:Ex; [| apply nth_error_None in Ex; lia].
    destruct (nth_error Y j) as [y |] eqn:Ey; [| apply nth_error_None in Ey; lia].
    cbn [py_range foldM].
    replace (Z.of_nat j + 1) with (Z.of_nat (S j)) by lia.
    unfold bind at 1. cbv [bind index lift ret]. rewrite !py_index_nat, Ex, Ey.
    cbn [of_option].
    rewrite (IH (S j)) by lia.
    rewrite (skipn_nth_error X j x Ex), (skipn_nth_error Y j y Ey).
    cbn [combine]. rewrite <- app_assoc. reflexivity.
Qed.

Lemma data_loop_short (X : list (list Q)) (Y : list Q) (w : World) (m : nat) :
  forall (j : nat) (data : list (list Q * Q)),
    (j <= length X < j + m)%nat ->
    foldM (fun data i =>
             x <- index X i ;;
             y <- index Y i ;;
             ret (data ++ [(x, y)]))
          (py_range (Z.of_nat j) m) data w
    = (inl IndexError, w).
Proof.
  induction m as [| m IH]; intros j data Hj; [lia |].
  cbn [py_range foldM].
  replace (Z.of_nat j + 1) with (Z.of_nat (S j)) by lia.
  unfold bind at 1. cbv [bind index lift ret]. rewrite !py_index_nat.
  destruct (nth_error X j) as [x |] eqn:Ex; cbn [of_option]; [| reflexivity].
  assert (j < length X)%nat by (apply nth_error_Some; congruence).
  destruct (nth_error Y j) as [y |]; cbn [of_option]; [| reflexivity].
  apply IH. lia.
Qed.

(** X19.  When no forest is passed, the training step fits one forest on
    the rows of [X] paired with the entries of [Y], as many as [Y] has
    (further rows of [X] are not used), with the options of lines 98-102:
    the seed is the one given or else [np.random.randint(2**31-1)], the
    points per tree default to the number of rows and max_features to
    seven tenths of the number of columns, rounded down.  When [Y] is
    longer than [X] it raises IndexError and fits nothing. *)
Theorem train_fits_on_paired_rows :
  forall (lib : Lib) (a : Args.t) (X : list (list Q)) (Y : list Q) (w : World),
    Args.forest a = None ->
    Args.X a = Some X ->
    Args.Y a = Some Y ->
    let options :=
      {| opt_num_trees := Args.num_trees a;
         opt_seed := match Args.seed a with
                     | None => randint lib (2 ^ 31 - 1)
                     | Some s => s
                     end;
         opt_do_bootstrapping := Args.bootstrapping a;
         opt_num_data_points_per_tree :=
           match Args.points_per_tree a with
           | None => Z.of_nat (length X)
           | Some p => p
           end;
         opt_max_features :=
           match Args.max_features a with
           | None => (Z.of_nat (shape1 X) * 7) / 10
           | Some m => m
           end |} in
    ((length Y <= length X)%nat ->
       train lib a w
       = (inr (fit lib options (combine X Y)),
          {| self := self w; queries := queries w;
             trainings := trainings w ++ [(options, combine X Y)] |}))
    /\ ((length X < length Y)%nat -> train lib a w = (inl IndexError, w)).
Proof.
  intros lib a X Y w Hf HX HY options. split; intros Hlen.
  - unfold train. rewrite Hf, HX, HY.
    rewrite (bind_inr _ _ _ _ _
               (data_loop X Y w (length Y) 0 [] eq_refl Hlen)).
    reflexivity.
  - unfold train. rewrite Hf, HX, HY.
    apply bind_inl. apply (data_loop_short X Y w (length Y) 0 []). lia.
Qed.

Lemma train_fits_on_paired_rows_witness :
  train Small.lib
    {| Args.X := Some [[0; 2]; [1; 3]; [4; 4]]%Q; Args.Y := Some [1; 3]%Q;
       Args.cs := None; Args.forest := None; Args.num_trees := 1;
       Args.seed := Some 5; Args.bootstrapping := true;
       Args.points_per_tree := None; Args.max_features := None |}
    Small.nothing
  = (inr Small.forest,
     {| self := blank; queries := [];
        trainings :=
          [({| opt_num_trees := 1; opt_seed := 5; opt_do_bootstrapping := true;
               opt_num_data_points_per_tree := 3; opt_max_features := 1 |},
            [([0; 2], 1); ([1; 3], 3)]%Q)] |}).
Proof.
  apply (train_fits_on_paired_rows Small.lib
           {| Args.X := Some [[0; 2]; [1; 3]; [4; 4]]%Q; Args.Y := Some [1; 3]%Q;
              Args.cs := None; Args.forest := None; Args.num_trees := 1;
              Args.seed := Some 5; Args.bootstrapping := true;
              Args.points_per_tree := None; Args.max_features := None |}
           [[0; 2]; [1; 3]; [4; 4]]%Q [1; 3]%Q Small.nothing
           eq_refl eq_refl eq_refl).
  simpl. lia.
Defined.

(** ** What a request stores for a single dimension *)

Lemma lookup_store_same (k : list Z) (e : entry) (m : memo) :
  lookup k (store k e m) = Some e.
Proof.
  induction m as [| [k' e'] m IH]; simpl.
  - rewrite (proj2 (key_eqb_eq k k) eq_refl). reflexivity.
  - destruct (key_eqb k k') eqn:E; simpl; rewrite E; [reflexivity | exact IH].
Qed.

Lemma store_store (k : list Z) (e1 e2 : entry) (m : memo) :
  store k e2 (store k e1 m) = store k e2 m.
Proof.
  induction m as [| [k' e'] m IH]; simpl.
  - rewrite (proj2 (key_eqb_eq k k) eq_refl). reflexivity.
  - destruct (key_eqb k k') eqn:E; simpl; rewrite E; [reflexivity |].
    rewrite IH. reflexivity.
Qed.

Lemma set_nth_middle {A : Type} (a : list A) (o v : A) (r : list A) :
  set_nth (a ++ o :: r) (length a) v = Some (a ++ v :: r).
Proof.
  induction a as [| x a IH]; [reflexivity |].
  cbn [app length set_nth]. rewrite IH. reflexivity.
Qed.

Lemma repeat_split {A : Type} (x : A) (n dn : nat) :
  (dn < n)%nat -> repeat x n = repeat x dn ++ x :: repeat x (n - dn - 1).
Proof.
  intros H. replace n with (dn + S (n - dn - 1))%nat at 1 by lia.
  rewrite repeat_app. reflexivity.
Qed.

Lemma product_single {A : Type} (l : list A) :
  product [l] = map (fun x => [x]) l.
Proof.
  change (product [l]) with (flat_map (fun x => map (cons x) [[]]) l).
  induction l as [| x l IH]; [reflexivity |].
  simpl. f_equal; try exact IH.
Qed.

Lemma skipn_cons_nth_error {A : Type} (l : list A) :
  forall (i : nat) (x : A) (r : list A),
    skipn i l = x :: r -> nth_error l i = Some x /\ skipn (S i) l = r.
Proof.
  induction l as [| y l IH]; intros [| i] x r H; simpl in H; try discriminate.
  - inversion H; subst. split; reflexivity.
  - apply IH. exact H.
Qed.

Lemma getattr_eq {A : Type} (attr : string) (f : fANOVA -> option A) (w : World) (v : A) :
  f (self w) = Some v -> getattr attr f w = (inr v, w).
Proof. intros H. unfold getattr. rewrite H. reflexivity. Qed.

Lemma index_eq {A : Type} (l : list A) (i : nat) (v : A) (w : World) :
  nth_error l i = Some v -> index l (Z.of_nat i) w = (inr v, w).
Proof. intros H. unfold index, lift. rewrite py_index_nat, H. reflexivity. Qed.

Lemma predict_eq (s : list (option Q)) (forest : Forest) (w : World) :
  the_forest (self w) = Some forest ->
  predict s w
  = (inr (marginal_mean_prediction forest s),
     {| self := self w; queries := queries w ++ [s]; trainings := trainings w |}).
Proof.
  intros H. unfold predict. rewrite (bind_inr _ _ _ _ _ (getattr_eq _ _ _ _ H)).
  reflexivity.
Qed.

Lemma memo_new_eq (k : list Z) (mc : memo) (w : World) :
  param_dic (self w) = Some mc ->
  memo_new k w
  = (inr tt,
     {| self := set_param_dic
                  (store k {| Name := None; MarginalVarianceContribution := None |} mc)
                  (self w);
        queries := queries w; trainings := trainings w |}).
Proof.
  intros H. unfold memo_new. rewrite (bind_inr _ _ _ _ _ (getattr_eq _ _ _ _ H)).
  reflexivity.
Qed.

Lemma memo_set_Name_eq (k : list Z) (n : string) (mc : memo) (e : entry) (w : World) :
  param_dic (self w) = Some mc ->
  lookup k mc = Some e ->
  memo_set_Name k n w
  = (inr tt,
     {| self := set_param_dic
                  (store k {| Name := Some n;
                              MarginalVarianceContribution :=
                                MarginalVarianceContribution e |} mc)
                  (self w);
        queries := queries w; trainings := trainings w |}).
Proof.
  intros H Hl. unfold memo_set_Name.
  rewrite (bind_inr _ _ _ _ _ (getattr_eq _ _ _ _ H)).
  unfold bind, lift. rewrite Hl. reflexivity.
Qed.

Lemma memo_set_MVC_eq (k : list Z) (v : Q) (mc : memo) (e : entry) (w : World) :
  param_dic (self w) = Some mc ->
  lookup k mc = Some e ->
  memo_set_MVC k v w
  = (inr tt,
     {| self := set_param_dic
                  (store k {| Name := Name e;
                              MarginalVarianceContribution := Some v |} mc)
                  (self w);
        queries := queries w; trainings := trainings w |}).
Proof.
  intros H Hl. unfold memo_set_MVC.
  rewrite (bind_inr _ _ _ _ _ (getattr_eq _ _ _ _ H)).
  unfold bind, lift. rewrite Hl. reflexivity.
Qed.

Section Single_dimension.

Variables (lib : Lib) (pv : Q -> Q -> Q).
Variables (mids szs : list (list (list Q))) (forest : Forest).
Variables (params : list Hyperparameter) (m : memo).
Variables (dn : nat) (hp : Hyperparameter).

Hypothesis push_total : forall x s, push_variance lib x s = inr (pv x s).
Hypothesis param_dn : nth_error params dn = Some hp.
Hypothesis enough_predictions :
  forall q, (length mids <= length (marginal_mean_prediction forest q))%nat.

(** The memo has the entry of the request or is as the request found it. *)
Let touched (mc : memo) : Prop :=
  mc = m \/ exists e, mc = store [Z.of_nat dn] e m.

Lemma touched_store (mc : memo) (e : entry) :
  touched mc -> store [Z.of_nat dn] e mc = store [Z.of_nat dn] e m.
Proof.
  intros [-> | [e' ->]]; [reflexivity | apply store_store].
Qed.

(** One grid cell of a single dimension (lines 219-234). *)
Lemma point_single (dim_list : list Z) (t n i : nat) (zt : list (list Q))
    (sd : list Q) (interval_sizes : list (list Q)) (st : point_state)
    (o : option Q) (x s : Q) (mc : memo) (w : World) :
  (t < length mids)%nat ->
  nth_error szs t = Some zt ->
  nth_error zt dn = Some sd ->
  nth_error sd i = Some s ->
  (dn < n)%nat ->
  sample st = repeat None dn ++ o :: repeat None (n - dn - 1) ->
  engine_with mids szs forest params mc w ->
  touched mc ->
  exists w',
    point lib dim_list [Z.of_nat dn] 1 (Z.of_nat t) [Z.of_nat dn] interval_sizes st
      (Z.of_nat i, [x]) w
    = (inr {| sample := cell_vector n dn x;
              weightedSum := weightedSum st;
              weightedSumOfSquares :=
                (weightedSumOfSquares st
                 + pv (nth t (marginal_mean_prediction forest (cell_vector n dn x)) 0) s)%Q;
              prev_FraqExp := prev_FraqExp st;
              totalFractionsExplained := totalFractionsExplained st |}, w')
    /\ engine_with mids szs forest params
         (store [Z.of_nat dn]
            {| Name := Some (hp_name hp);
               MarginalVarianceContribution :=
                 Some (raw_contribution
                         (weightedSum st,
                          (weightedSumOfSquares st
                           + pv (nth t (marginal_mean_prediction forest
                                          (cell_vector n dn x)) 0) s)%Q)) |} m) w'
    /\ queries w' = queries w ++ [cell_vector n dn x].
Proof.
  intros Ht Hzt Hsd Hs Hdn Hsample (Ha & Hb & Hc & Hd & He) Htouched.
  assert (Hpred : nth_error (marginal_mean_prediction forest (cell_vector n dn x)) t
                  = Some (nth t (marginal_mean_prediction forest (cell_vector n dn x)) 0%Q)).
  { apply nth_error_nth'. pose proof (enough_predictions (cell_vector n dn x)). lia. }
  assert (Hfix : fix_sample [Z.of_nat dn] [x] (sample st) w
                 = (inr (cell_vector n dn x), w)).
  { unfold fix_sample. cbn [length py_range foldM].
    cbv [bind index lift ret].
    cbn [py_index Z.leb Z.compare Z.to_nat nth_error length of_option].
    rewrite Hsample. unfold py_setitem.
    destruct (0 <=? Z.of_nat dn) eqn:E; [| apply Z.leb_gt in E; lia].
    rewrite Nat2Z.id.
    pose proof (set_nth_middle (repeat (@None Q) dn) o (Some x)
                  (repeat None (n - dn - 1))) as Hset.
    rewrite repeat_length in Hset. rewrite Hset. reflexivity. }
  set (vec := cell_vector n dn x) in *.
  set (w1 := {| self := self w; queries := queries w ++ [vec];
                trainings := trainings w |}).
  assert (Hb1 : all_sizes (self w1) = Some szs) by exact Hb.
  assert (He1 : param_dic (self w1) = Some mc) by exact He.
  set (e0 := {| Name := None; MarginalVarianceContribution := None |}).
  set (w2 := {| self := set_param_dic (store [Z.of_nat dn] e0 mc) (self w1);
                queries := queries w1; trainings := trainings w1 |}).
  assert (Hd2 : cs_params (self w2) = Some params) by exact Hd.
  assert (He2 : param_dic (self w2) = Some (store [Z.of_nat dn] e0 mc))
    by reflexivity.
  set (e1 := {| Name := Some (hp_name hp);
                MarginalVarianceContribution := MarginalVarianceContribution e0 |}).
  set (w3 := {| self := set_param_dic
                          (store [Z.of_nat dn] e1 (store [Z.of_nat dn] e0 mc))
                          (self w2);
                queries := queries w2; trainings := trainings w2 |}).
  assert (He3 : param_dic (self w3)
                = Some (store [Z.of_nat dn] e1 (store [Z.of_nat dn] e0 mc)))
    by reflexivity.
  unfold point. rewrite (bind_inr _ _ _ _ _ Hfix).
  rewrite (bind_inr _ _ _ _ _ (predict_eq vec forest w Hc)).
  fold w1.
  rewrite (bind_inr _ _ _ _ _ (index_eq _ _ _ w1 Hpred)).
  cbn [length Nat.eqb].
  unfold bind at 1. cbn [lift of_option last_error rev app].
  unfold single.
  rewrite (bind_inr _ _ _ _ _ (getattr_eq "all_sizes" all_sizes w1 _ Hb1)).
  rewrite (bind_inr _ _ _ _ _ (index_eq _ _ _ w1 Hzt)).
  rewrite (bind_inr _ _ _ _ _ (index_eq _ _ _ w1 Hsd)).
  rewrite (bind_inr _ _ _ _ _ (index_eq _ _ _ w1 Hs)).
  unfold bind at 1. rewrite push_total. cbn [lift].
  rewrite (bind_inr _ _ _ _ _ (memo_new_eq [Z.of_nat dn] mc w1 He1)).
  fold e0. fold w2.
  rewrite (bind_inr _ _ _ _ _ (getattr_eq "cs_params" cs_params w2 _ Hd2)).
  rewrite (bind_inr _ _ _ _ _ (index_eq _ _ _ w2 param_dn)).
  rewrite (bind_inr _ _ _ _ _
             (memo_set_Name_eq [Z.of_nat dn] (hp_name hp) _ e0 w2 He2
                (lookup_store_same _ _ _))).
  fold e1. fold w3.
  rewrite (bind_inr _ _ _ _ _
             (memo_set_MVC_eq [Z.of_nat dn] _ _ e1 w3 He3
                (lookup_store_same _ _ _))).
  eexists. split; [reflexivity |]. split; [| reflexivity].
  unfold engine_with. cbn [self all_midpoints all_sizes the_forest cs_params
                            param_dic set_param_dic
                            Name MarginalVarianceContribution].
  subst w3 w2 w1. cbn [self].
  repeat (split; [assumption |]).
  rewrite !store_store. rewrite (touched_store mc _ Htouched). reflexivity.
Qed.

(** The cells of one dimension of one tree (lines 217-234). *)
Lemma cells_single (dim_list : list Z) (t n : nat) (zt : list (list Q))
    (sd : list Q) (interval_sizes : list (list Q)) :
  (t < length mids)%nat ->
  nth_error szs t = Some zt ->
  nth_error zt dn = Some sd ->
  (dn < n)%nat ->
  forall (rest : list Q) (i : nat) (srest : list Q) (st : point_state)
         (o : option Q) (mc : memo) (w : World),
    skipn i sd = srest ->
    (length rest <= length srest)%nat ->
    sample st = repeat None dn ++ o :: repeat None (n - dn - 1) ->
    weightedSum st = 0%Q ->
    engine_with mids szs forest params mc w ->
    touched mc ->
    exists st' w' mc',
      foldM (point lib dim_list [Z.of_nat dn] 1 (Z.of_nat t) [Z.of_nat dn] interval_sizes)
        (combine (py_range (Z.of_nat i) (length rest)) (map (fun x => [x]) rest)) st w
      = (inr st', w')
      /\ engine_with mids szs forest params mc' w'
      /\ touched mc'
      /\ weightedSumOfSquares st'
         = fold_left (fun wss c =>
                        (wss + pv (nth t (marginal_mean_prediction forest
                                            (cell_vector n dn (fst c))) 0)
                                  (snd c))%Q)
             (combine rest srest) (weightedSumOfSquares st)
      /\ (rest = [] -> mc' = mc /\ w' = w)
      /\ (rest <> [] ->
          mc' = store [Z.of_nat dn]
                  {| Name := Some (hp_name hp);
                     MarginalVarianceContribution :=
                       Some (raw_contribution (0%Q, weightedSumOfSquares st')) |} m)
      /\ queries w' = queries w ++ map (cell_vector n dn) rest
      /\ totalFractionsExplained st' = totalFractionsExplained st.
Proof.
  intros Ht Hzt Hsd Hdn.
  induction rest as [| x rest IH]; intros i srest st o mc w Hskip Hlen Hsample Hws He Ht'.
  - exists st, w, mc. cbn [length py_range map combine foldM ret fold_left].
    split; [reflexivity |]. split; [exact He |]. split; [exact Ht' |].
    split; [reflexivity |]. split; [intros _; split; reflexivity |].
    split; [intros H; contradiction |].
    split; [rewrite app_nil_r; reflexivity | reflexivity].
  - destruct srest as [| s srest]; [simpl in Hlen; lia |].
    destruct (skipn_cons_nth_error sd i s srest Hskip) as [Hs Hskip'].
    destruct (point_single dim_list t n i zt sd interval_sizes st o x s mc w
                Ht Hzt Hsd Hs Hdn Hsample He Ht') as (w1 & Hp & He1 & Hq1).
    match type of Hp with _ = (inr ?v, _) => set (st1 := v) in * end.
    match type of He1 with engine_with _ _ _ _ ?v _ => set (mc1 := v) in * end.
    destruct (IH (S i) srest st1 (Some x) mc1 w1)
      as (st' & w' & mc' & Hf & He' & Ht2 & Hsum & Hnil & Hcons & Hq & Htfe).
    + exact Hskip'.
    + simpl in Hlen. lia.
    + reflexivity.
    + exact Hws.
    + exact He1.
    + right. eexists. reflexivity.
    + exists st', w', mc'.
      split; [| split; [exact He' | split; [exact Ht2 | split; [| split; [| split; [| split]]]]]].
      * cbn [length py_range map combine foldM].
        replace (Z.of_nat i + 1) with (Z.of_nat (S i)) by lia.
        rewrite (bind_inr _ _ _ _ _ Hp). exact Hf.
      * rewrite Hsum. reflexivity.
      * intros H. discriminate.
      * intros _. destruct rest as [| y rest].
        -- rewrite (proj1 (Hnil eq_refl)). rewrite Hsum. cbn [combine fold_left].
           subst mc1 st1. cbn [weightedSumOfSquares]. rewrite Hws. reflexivity.
        -- apply Hcons. discriminate.
      * rewrite Hq, Hq1. cbn [map]. rewrite <- app_assoc. reflexivity.
      * rewrite Htfe. reflexivity.
Qed.

(** One tree (lines 202-234). *)
Lemma tree_single (dim_list : list Z) (tfe : option Q) (t : nat)
    (mt zt : list (list Q)) (md sd : list Q) (mc : memo) (w : World) :
  nth_error mids t = Some mt ->
  nth_error mt dn = Some md ->
  nth_error szs t = Some zt ->
  nth_error zt dn = Some sd ->
  (length md <= length sd)%nat ->
  engine_with mids szs forest params mc w ->
  touched mc ->
  exists w' mc',
    tree_body lib dim_list [Z.of_nat dn] 1 tfe (Z.of_nat t) w = (inr tfe, w')
    /\ engine_with mids szs forest params mc' w'
    /\ touched mc'
    /\ (md = [] -> mc' = mc /\ w' = w)
    /\ (md <> [] ->
        mc' = store [Z.of_nat dn]
                {| Name := Some (hp_name hp);
                   MarginalVarianceContribution :=
                     Some (raw_contribution
                             (0%Q, tree_sum pv forest t (length mt) dn (combine md sd))) |}
                m)
    /\ queries w' = queries w ++ map (cell_vector (length mt) dn) md.
Proof.
  intros Hmt Hmd Hzt Hsd Hlen He Ht'.
  assert (Ht : (t < length mids)%nat) by (apply nth_error_Some; congruence).
  assert (Hdn : (dn < length mt)%nat) by (apply nth_error_Some; congruence).
  destruct He as (Ha & Hb & Hc & Hd & Hm).
  assert (Hg : gather (Z.of_nat t) [Z.of_nat dn] w = (inr ([md], [sd], [Z.of_nat dn]), w)).
  { unfold gather. cbn [foldM]. cbv beta iota.
    eapply eq_trans; [apply bind_inr | reflexivity].
    rewrite (bind_inr _ _ _ _ _ (getattr_eq "all_midpoints" all_midpoints w _ Ha)).
    rewrite (bind_inr _ _ _ _ _ (index_eq _ _ _ w Hmt)).
    rewrite (bind_inr _ _ _ _ _ (index_eq _ _ _ w Hmd)).
    rewrite (bind_inr _ _ _ _ _ (getattr_eq "all_sizes" all_sizes w _ Hb)).
    rewrite (bind_inr _ _ _ _ _ (index_eq _ _ _ w Hzt)).
    rewrite (bind_inr _ _ _ _ _ (index_eq _ _ _ w Hsd)).
    reflexivity. }
  destruct (cells_single dim_list t (length mt) zt sd (product [sd]) Ht Hzt Hsd Hdn
              md 0 sd
              {| sample := repeat None (length mt); weightedSum := 0;
                 weightedSumOfSquares := 0; prev_FraqExp := 0;
                 totalFractionsExplained := tfe |}
              None mc w eq_refl Hlen)
    as (st' & w' & mc' & Hf & He' & Ht2 & Hsum & Hnil & Hcons & Hq & Htfe).
  - cbn [sample]. apply repeat_split. exact Hdn.
  - reflexivity.
  - repeat split; assumption.
  - exact Ht'.
  - exists w', mc'.
    split; [| split; [exact He' | split; [exact Ht2 | split; [exact Hnil | split; [| exact Hq]]]]].
    + unfold tree_body.
      rewrite (bind_inr _ _ _ _ _ (getattr_eq "all_midpoints" all_midpoints w _ Ha)).
      rewrite (bind_inr _ _ _ _ _ (index_eq _ _ _ w Hmt)).
      rewrite (bind_inr _ _ _ _ _ Hg). cbv beta iota zeta.
      rewrite (product_single md), length_map.
      change (py_range 0 (length md)) with (py_range (Z.of_nat 0) (length md)).
      rewrite (bind_inr _ _ _ _ _ Hf). cbn [ret]. rewrite Htfe. reflexivity.
    + intros Hne. rewrite (Hcons Hne). rewrite Hsum. reflexivity.
Qed.

Hypothesis grid_ok :
  forall t mt, nth_error mids t = Some mt ->
    exists zt md sd,
      nth_error szs t = Some zt /\ nth_error mt dn = Some md
      /\ nth_error zt dn = Some sd /\ (length md <= length sd)%nat.

(** The loop over the trees (line 202) when no tree from [j] on has a cell
    for the dimension: nothing is asked and nothing is stored. *)
Lemma trees_without_cells (dim_list : list Z) (k : nat) :
  forall (j : nat) (tfe : option Q) (mc : memo) (w : World),
    (j + k = length mids)%nat ->
    (forall t mt md, (j <= t)%nat -> nth_error mids t = Some mt ->
       nth_error mt dn = Some md -> md = []) ->
    engine_with mids szs forest params mc w ->
    touched mc ->
    foldM (tree_body lib dim_list [Z.of_nat dn] 1) (py_range (Z.of_nat j) k) tfe w
    = (inr tfe, w).
Proof.
  induction k as [| k IH]; intros j tfe mc w Hj Hempty He Ht'.
  - reflexivity.
  - destruct (nth_error mids j) as [mt |] eqn:Emt;
      [| apply nth_error_None in Emt; lia].
    destruct (grid_ok _ _ Emt) as (zt & md & sd & H1 & H2 & H3 & H4).
    assert (Hmd : md = []) by (apply (Hempty j mt md (le_n _) Emt H2)).
    destruct (tree_single dim_list tfe j mt zt md sd mc w Emt H2 H1 H3 H4 He Ht')
      as (w1 & mc1 & Hb & _ & _ & Hnil & _).
    destruct (Hnil Hmd) as [_ ->].
    assert (Hk : (S j + k = length mids)%nat) by lia.
    assert (Hemp : forall t mt md, (S j <= t)%nat -> nth_error mids t = Some mt ->
              nth_error mt dn = Some md -> md = [])
      by (intros t mt' md' Hle; apply Hempty; lia).
    cbn [py_range foldM]. rewrite (bind_inr _ _ _ _ _ Hb).
    replace (Z.of_nat j + 1) with (Z.of_nat (S j)) by lia.
    apply (IH (S j) tfe mc w Hk Hemp He Ht').
Qed.

(** The first request for a dimension for which no tree has a cell. *)
Lemma request_without_cells (w : World) :
  engine_with mids szs forest params m w ->
  lookup [Z.of_nat dn] m = None ->
  (forall t mt md, nth_error mids t = Some mt -> nth_error mt dn = Some md -> md = []) ->
  get_marginal lib [Z.of_nat dn] w = (inl (AttributeError "param_dict"), w).
Proof.
  intros He Hl Hempty.
  assert (Hf : foldM (tree_body lib [Z.of_nat dn] [Z.of_nat dn] 1)
                 (py_range (Z.of_nat 0) (length mids)) None w = (inr None, w)).
  { apply (trees_without_cells [Z.of_nat dn] (length mids) 0 None m w eq_refl).
    - intros t mt md _. apply Hempty.
    - exact He.
    - left. reflexivity. }
  assert (Hs : subset_body lib [Z.of_nat dn] 1 None [Z.of_nat dn] w = (inr None, w)).
  { destruct He as (Ha & Hb & Hc & Hd & Hm).
    unfold subset_body.
    rewrite (bind_inr _ _ _ _ _ (getattr_eq "param_dic" param_dic w _ Hm)).
    rewrite (has_key_false _ _ Hl).
    rewrite (bind_inr _ _ _ _ _ (getattr_eq "all_midpoints" all_midpoints w _ Ha)).
    exact Hf. }
  assert (Hc : foldM (subset_body lib [Z.of_nat dn] 1) (combinations [Z.of_nat dn] 1)
                 None w = (inr None, w)).
  { rewrite combinations_1. cbn [map foldM].
    rewrite (bind_inr _ _ _ _ _ Hs). reflexivity. }
  unfold get_marginal. cbn [length seq for_else].
  apply bind_inl. unfold order_body.
  rewrite (bind_inr _ _ _ _ _ Hc). reflexivity.
Qed.

Variables (tl : nat) (mt_last zt_last : list (list Q)) (md_last sd_last : list Q).

Hypothesis last_tree : nth_error mids tl = Some mt_last.
Hypothesis last_cells : nth_error mt_last dn = Some md_last.
Hypothesis last_sizes : nth_error szs tl = Some zt_last.
Hypothesis last_dim_sizes : nth_error zt_last dn = Some sd_last.
Hypothesis last_not_empty : md_last <> [].
Hypothesis later_empty :
  forall t mt md, (tl < t)%nat -> nth_error mids t = Some mt ->
    nth_error mt dn = Some md -> md = [].

(** The loop over the trees (line 202) when [tl] is the last tree that has
    a cell for the dimension. *)
Lemma trees_single (dim_list : list Z) (k : nat) :
  forall (j : nat) (tfe : option Q) (mc : memo) (w : World),
    (j + k = length mids)%nat ->
    (j <= tl)%nat ->
    engine_with mids szs forest params mc w ->
    touched mc ->
    exists w',
      foldM (tree_body lib dim_list [Z.of_nat dn] 1) (py_range (Z.of_nat j) k) tfe w
      = (inr tfe, w')
      /\ engine_with mids szs forest params
           (store [Z.of_nat dn]
              {| Name := Some (hp_name hp);
                 MarginalVarianceContribution :=
                   Some (raw_contribution
                           (0%Q, tree_sum pv forest tl (length mt_last)
                                   dn (combine md_last sd_last))) |} m) w'.
Proof.
  assert (Htl : (tl < length mids)%nat)
    by (apply nth_error_Some; rewrite last_tree; discriminate).
  induction k as [| k IH]; intros j tfe mc w Hj Hle He Ht'; [lia |].
  destruct (Nat.eq_dec j tl) as [-> | Hne].
  - destruct (tree_single dim_list tfe tl mt_last zt_last md_last sd_last mc w)
      as (w1 & mc1 & Hb & He1 & Ht1 & _ & Hmc & _); try assumption.
    + destruct (grid_ok _ _ last_tree) as (zt & md & sd & H1 & H2 & H3 & H4).
      rewrite last_sizes in H1. inversion H1; subst zt.
      rewrite last_cells in H2. inversion H2; subst md.
      rewrite last_dim_sizes in H3. inversion H3; subst sd. exact H4.
    + rewrite (Hmc last_not_empty) in He1.
      assert (Hk : (S tl + k = length mids)%nat) by lia.
      assert (Hemp : forall t mt md, (S tl <= t)%nat -> nth_error mids t = Some mt ->
                nth_error mt dn = Some md -> md = [])
        by (intros t mt md Hlt; apply later_empty; lia).
      exists w1. split; [| exact He1].
      cbn [py_range foldM]. rewrite (bind_inr _ _ _ _ _ Hb).
      replace (Z.of_nat tl + 1) with (Z.of_nat (S tl)) by lia.
      apply (trees_without_cells dim_list k (S tl) tfe _ w1 Hk Hemp He1).
      right. eexists. reflexivity.
  - destruct (nth_error mids j) as [mt |] eqn:Emt;
      [| apply nth_error_None in Emt; lia].
    destruct (grid_ok _ _ Emt) as (zt & md & sd & H1 & H2 & H3 & H4).
    destruct (tree_single dim_list tfe j mt zt md sd mc w Emt H2 H1 H3 H4 He Ht')
      as (w1 & mc1 & Hb & He1 & Ht1 & _).
    assert (Hk : (S j + k = length mids)%nat) by lia.
    assert (Hle' : (S j <= tl)%nat) by lia.
    destruct (IH (S j) tfe mc1 w1 Hk Hle' He1 Ht1) as (w' & Hf & He').
    exists w'. split; [| exact He'].
    cbn [py_range foldM]. rewrite (bind_inr _ _ _ _ _ Hb).
    replace (Z.of_nat j + 1) with (Z.of_nat (S j)) by lia. exact Hf.
Qed.

Lemma request_single (w : World) :
  engine_with mids szs forest params m w ->
  lookup [Z.of_nat dn] m = None ->
  param_dic (self (snd (get_marginal lib [Z.of_nat dn] w)))
  = Some (store [Z.of_nat dn]
            {| Name := Some (hp_name hp);
               MarginalVarianceContribution :=
                 Some (raw_contribution
                         (0%Q, tree_sum pv forest tl (length mt_last)
                                 dn (combine md_last sd_last))) |} m).
Proof.
  intros He Hl.
  destruct (trees_single [Z.of_nat dn] (length mids) 0 None m w eq_refl
              (Nat.le_0_l _) He (or_introl eq_refl)) as (w' & Hf & He').
  destruct (get_marginal_first_order lib (Z.of_nat dn) [] w) as [Hsnd _].
  rewrite Hsnd. cbn [combinations map app foldM].
  assert (Hs : subset_body lib [Z.of_nat dn] 1 None [Z.of_nat dn] w = (inr None, w')).
  { destruct He as (Ha & Hb & Hc & Hd & Hm).
    unfold subset_body.
    rewrite (bind_inr _ _ _ _ _ (getattr_eq "param_dic" param_dic w _ Hm)).
    rewrite (has_key_false _ _ Hl).
    rewrite (bind_inr _ _ _ _ _ (getattr_eq "all_midpoints" all_midpoints w _ Ha)).
    exact Hf. }
  rewrite (bind_inr _ _ _ _ _ Hs). cbn [ret snd].
  destruct He' as (_ & _ & _ & _ & Hm'). exact Hm'.
Qed.

End Single_dimension.

(** ** The evaluator, as it runs *)

(** C2, as the code has it.  For a subset of the single dimension [dn] and
    a tree [t] whose grid has the cells [md] of sizes [sd] for it, the
    evaluator asks the forest once per cell, with the dimension fixed at
    the cell's midpoint and every other one left open.  [weightedSum]
    stays 0; [weightedSumOfSquares] grows, per cell, by what the running
    statistic reports for the cell's prediction and size; and the memo
    entry of the dimension is left holding [weightedSumOfSquares -
    weightedSum^2] of the tree.  Nothing is divided by a total weight, no
    mean is taken and nothing is clamped.  A tree without a cell for the
    dimension changes nothing. *)
Theorem evaluator_of_one_dimension :
  forall (lib : Lib) (pv : Q -> Q -> Q) (mids szs : list (list (list Q)))
         (forest : Forest) (params : list Hyperparameter) (mc : memo)
         (dn t : nat) (hp : Hyperparameter) (dim_list : list Z) (tfe : option Q)
         (mt zt : list (list Q)) (md sd : list Q) (w : World),
    (forall x s, push_variance lib x s = inr (pv x s)) ->
    nth_error params dn = Some hp ->
    (forall q, (length mids <= length (marginal_mean_prediction forest q))%nat) ->
    nth_error mids t = Some mt ->
    nth_error mt dn = Some md ->
    nth_error szs t = Some zt ->
    nth_error zt dn = Some sd ->
    (length md <= length sd)%nat ->
    engine_with mids szs forest params mc w ->
    exists w' : World,
      tree_body lib dim_list [Z.of_nat dn] 1 tfe (Z.of_nat t) w = (inr tfe, w')
      /\ queries w' = queries w ++ map (cell_vector (length mt) dn) md
      /\ (md = [] -> w' = w)
      /\ (md <> [] ->
          engine_with mids szs forest params
            (store [Z.of_nat dn]
               {| Name := Some (hp_name hp);
                  MarginalVarianceContribution :=
                    Some (raw_contribution
                            (0%Q, tree_sum pv forest t (length mt) dn (combine md sd))) |}
               mc) w').
Proof.
  intros lib pv mids szs forest params mc dn t hp dim_list tfe mt zt md sd w
         Hpv Hp Hpred Hmt Hmd Hzt Hsd Hlen He.
  destruct (tree_single lib pv mids szs forest params mc dn hp Hpv Hp Hpred
              dim_list tfe t mt zt md sd mc w Hmt Hmd Hzt Hsd Hlen He
              (or_introl eq_refl))
    as (w' & mc' & Hb & He' & _ & Hnil & Hcons & Hq).
  exists w'. split; [exact Hb |]. split; [exact Hq |]. split.
  - intros H. exact (proj2 (Hnil H)).
  - intros H. rewrite <- (Hcons H). exact He'.
Qed.

Lemma evaluator_of_one_dimension_witness :
  exists w' : World,
    tree_body Small.lib [1] [1] 1 None 0 Small.world = (inr None, w')
    /\ queries w'
       = [[None; Some ((1 # 2) * ((1 # 2) + (1 # 4)))%Q];
          [None; Some ((1 # 2) * ((3 # 4) + (1 # 2)))%Q]]
    /\ param_dic (self w')
       = Some [([1],
                {| Name := Some "b"%string;
                   MarginalVarianceContribution :=
                     Some (raw_contribution
                             (0%Q,
                              tree_sum (fun x s => x * s)%Q Small.forest 0 2 1
                                [((1 # 2) * ((1 # 2) + (1 # 4)), (1 # 2) - (1 # 4));
                                 ((1 # 2) * ((3 # 4) + (1 # 2)), (3 # 4) - (1 # 2))]%Q)) |})].
Proof.
  destruct (evaluator_of_one_dimension Small.lib (fun x s => x * s)%Q
              [[[(1 # 2) * ((3 # 4) + (1 # 4))];
                [(1 # 2) * ((1 # 2) + (1 # 4)); (1 # 2) * ((3 # 4) + (1 # 2))]]]%Q
              [[[(3 # 4) - (1 # 4)]; [(1 # 2) - (1 # 4); (3 # 4) - (1 # 2)]]]%Q
              Small.forest
              [UniformFloatHyperparameter "a" 0 1; UniformFloatHyperparameter "b" 0 1]
              [] 1%nat 0%nat (UniformFloatHyperparameter "b" 0 1) [1] None
              [[(1 # 2) * ((3 # 4) + (1 # 4))];
               [(1 # 2) * ((1 # 2) + (1 # 4)); (1 # 2) * ((3 # 4) + (1 # 2))]]%Q
              [[(3 # 4) - (1 # 4)]; [(1 # 2) - (1 # 4); (3 # 4) - (1 # 2)]]%Q
              [(1 # 2) * ((1 # 2) + (1 # 4)); (1 # 2) * ((3 # 4) + (1 # 2))]%Q
              [(1 # 2) - (1 # 4); (3 # 4) - (1 # 2)]%Q
              Small.world
              (fun x s => eq_refl) eq_refl (fun q => le_n 1) eq_refl eq_refl eq_refl
              eq_refl (le_n 2)
              (conj eq_refl (conj eq_refl (conj eq_refl (conj eq_refl eq_refl)))))
    as (w' & Hb & Hq & _ & Hcons).
  exists w'. split; [exact Hb |]. split; [exact Hq |].
  destruct (Hcons ltac:(discriminate)) as (_ & _ & _ & _ & Hm). exact Hm.
Defined.

(** C2 fails as stated.  On the small engine, for tree 0 and dimension 1,
    whose two cells of size 1/4 have the predictions 11/8 and 13/8, the
    loop over the cells ends with [weightedSum] at 0, where the claim's sum
    of weight times prediction is 3/4, and the entry stored is 3/4, the sum
    of what the running statistic reports per cell, where the claim's
    variance is 1/64. *)
Lemma one_dimension_is_no_weighted_variance :
  (exists (st : point_state) (w' : World),
     foldM (point Small.lib [1] [1] 1 0 [1]
              (product [[(1 # 2) - (1 # 4); (3 # 4) - (1 # 2)]]%Q))
       (combine (py_range 0 2)
          (product [[(1 # 2) * ((1 # 2) + (1 # 4)); (1 # 2) * ((3 # 4) + (1 # 2))]]%Q))
       {| sample := repeat None 2; weightedSum := 0; weightedSumOfSquares := 0;
          prev_FraqExp := 0; totalFractionsExplained := None |} Small.world
     = (inr st, w')
     /\ weightedSum st = 0%Q
     /\ (weightedSumOfSquares st == 3 # 4)%Q)
  /\ (exists (m : memo) (e : entry) (v : Q),
        param_dic (self (snd (tree_body Small.lib [1] [1] 1 None 0 Small.world)))
        = Some m
        /\ lookup [1] m = Some e
        /\ MarginalVarianceContribution e = Some v
        /\ (v == 3 # 4)%Q)
  /\ (Spec_evaluator.weighted_sum [(11 # 8, [1 # 4]); (13 # 8, [1 # 4])] == 3 # 4)%Q
  /\ (Spec_evaluator.mean [(11 # 8, [1 # 4]); (13 # 8, [1 # 4])] == 3 # 2)%Q
  /\ (Spec_evaluator.variance [(11 # 8, [1 # 4]); (13 # 8, [1 # 4])] == 1 # 64)%Q.
Proof.
  split; [| split; [| split; [| split]]].
  - eexists. eexists. split; [vm_compute; reflexivity |].
    split; reflexivity.
  - eexists. eexists. eexists.
    split; [vm_compute; reflexivity |].
    split; [reflexivity |]. split; reflexivity.
  - reflexivity.
  - reflexivity.
  - reflexivity.
Qed.

(** X20.  On an engine whose grid, sizes and parameters all have dimension
    [dn], whose forest answers every query with a prediction per tree and
    whose running statistic reports [pv x w] for a point, a first request
    for the single dimension [dn] leaves exactly one new entry in the memo
    when [tl] is the last tree that has a cell for the dimension: under the
    key [(dn,)], with the parameter's name, and with the sum over the cells
    of tree [tl] only of [pv (prediction for the cell) (size of the cell)].
    The sums are reset for every tree and the entry is overwritten at every
    cell, so the trees before [tl] do not contribute and nothing is averaged
    or normalised.  When no tree has a cell for the dimension the request
    asks the forest nothing and leaves the engine as it was. *)
Theorem get_marginal_stores_last_tree :
  forall (lib : Lib) (pv : Q -> Q -> Q) (mids szs : list (list (list Q)))
         (forest : Forest) (params : list Hyperparameter) (m : memo)
         (dn : nat) (hp : Hyperparameter) (w : World),
    (forall x s, push_variance lib x s = inr (pv x s)) ->
    engine_with mids szs forest params m w ->
    lookup [Z.of_nat dn] m = None ->
    nth_error params dn = Some hp ->
    (forall q, (length mids <= length (marginal_mean_prediction forest q))%nat) ->
    (forall t mt', nth_error mids t = Some mt' ->
       exists zt' md' sd',
         nth_error szs t = Some zt' /\ nth_error mt' dn = Some md'
         /\ nth_error zt' dn = Some sd' /\ (length md' <= length sd')%nat) ->
    (forall (tl : nat) (mt zt : list (list Q)) (md sd : list Q),
       nth_error mids tl = Some mt ->
       nth_error mt dn = Some md ->
       nth_error szs tl = Some zt ->
       nth_error zt dn = Some sd ->
       md <> [] ->
       (forall t mt' md', (tl < t)%nat -> nth_error mids t = Some mt' ->
          nth_error mt' dn = Some md' -> md' = []) ->
       param_dic (self (snd (get_marginal lib [Z.of_nat dn] w)))
       = Some (store [Z.of_nat dn]
                 {| Name := Some (hp_name hp);
                    MarginalVarianceContribution :=
                      Some (raw_contribution
                              (0%Q, tree_sum pv forest tl (length mt)
                                      dn (combine md sd))) |} m))
    /\ ((forall t mt' md', nth_error mids t = Some mt' ->
           nth_error mt' dn = Some md' -> md' = []) ->
        get_marginal lib [Z.of_nat dn] w = (inl (AttributeError "param_dict"), w)).
Proof.
  intros lib pv mids szs forest params m dn hp w Hpv He Hl Hp Hpred Hgrid. split.
  - intros tl mt zt md sd Hmt Hmd Hzt Hsd Hne Hlater.
    apply (request_single lib pv mids szs forest params m dn hp Hpv Hp Hpred Hgrid
             tl mt zt md sd Hmt Hmd Hzt Hsd Hne Hlater w He Hl).
  - intros Hempty.
    apply (request_without_cells lib pv mids szs forest params m dn hp Hpv Hp Hpred
             Hgrid w He Hl Hempty).
Qed.

Lemma get_marginal_stores_last_tree_witness :
  lookup [1] [] = None
  /\ param_dic (self (snd (get_marginal Small.lib [1] Small.world)))
     = Some [([1],
              {| Name := Some "b"%string;
                 MarginalVarianceContribution :=
                   Some (raw_contribution
                           (0%Q,
                            tree_sum (fun x s => x * s)%Q Small.forest 0 2 1
                              [((1 # 2) * ((1 # 2) + (1 # 4)), (1 # 2) - (1 # 4));
                               ((1 # 2) * ((3 # 4) + (1 # 2)), (3 # 4) - (1 # 2))]%Q)) |})].
Proof.
  split; [reflexivity |].
  refine (proj1 (get_marginal_stores_last_tree Small.lib (fun x s => x * s)%Q
           [[[(1 # 2) * ((3 # 4) + (1 # 4))];
             [(1 # 2) * ((1 # 2) + (1 # 4)); (1 # 2) * ((3 # 4) + (1 # 2))]]]%Q
           [[[(3 # 4) - (1 # 4)]; [(1 # 2) - (1 # 4); (3 # 4) - (1 # 2)]]]%Q
           Small.forest
           [UniformFloatHyperparameter "a" 0 1; UniformFloatHyperparameter "b" 0 1]
           [] 1%nat (UniformFloatHyperparameter "b" 0 1) Small.world _ _ _ _ _ _)
           0%nat
           [[(1 # 2) * ((3 # 4) + (1 # 4))];
            [(1 # 2) * ((1 # 2) + (1 # 4)); (1 # 2) * ((3 # 4) + (1 # 2))]]%Q
           [[(3 # 4) - (1 # 4)]; [(1 # 2) - (1 # 4); (3 # 4) - (1 # 2)]]%Q
           [(1 # 2) * ((1 # 2) + (1 # 4)); (1 # 2) * ((3 # 4) + (1 # 2))]%Q
           [(1 # 2) - (1 # 4); (3 # 4) - (1 # 2)]%Q
           _ _ _ _ _ _).
  - intros x s. reflexivity.
  - unfold engine_with. repeat split; reflexivity.
  - reflexivity.
  - reflexivity.
  - intros q. simpl. lia.
  - intros [| t] mt' H; simpl in H.
    + inversion H; subst mt'. eexists. eexists. eexists.
      repeat split; simpl; lia.
    + destruct t; discriminate.
  - reflexivity.
  - reflexivity.
  - reflexivity.
  - reflexivity.
  - discriminate.
  - intros [| t] mt' md' Hlt H; [lia |]. destruct t; discriminate.
Defined.

(** ** Requests for invalid subsets: later and repeated indices *)

Lemma foldM_app {A S : Type} (body : S -> A -> M S) (xs ys : list A) :
  forall (s : S) (w : World),
    foldM body (xs ++ ys) s w
    = match foldM body xs s w with
      | (inl e, w') => (inl e, w')
      | (inr s', w') => foldM body ys s' w'
      end.
Proof.
  induction xs as [| x xs IH]; intros s w; cbn [app foldM].
  - reflexivity.
  - unfold bind. destruct (body s x w) as [[e | s1] w1]; [reflexivity |].
    apply IH.
Qed.

(** The body of the loop over the subsets does not look at [dim_list] for
    a subset of one dimension. *)
Lemma subset_body_single_list (lib : Lib) (l1 l2 : list Z) (tfe : option Q) (d : Z)
    (w : World) :
  subset_body lib l1 1 tfe [d] w = subset_body lib l2 1 tfe [d] w.
Proof. reflexivity. Qed.

Lemma singles_loop_list (lib : Lib) (l1 l2 : list Z) (l : list Z) :
  forall (tfe : option Q) (w : World),
    foldM (subset_body lib l1 1) (map (fun x => [x]) l) tfe w
    = foldM (subset_body lib l2 1) (map (fun x => [x]) l) tfe w.
Proof.
  induction l as [| x l IH]; intros tfe w; cbn [map foldM].
  - reflexivity.
  - unfold bind. rewrite (subset_body_single_list lib l1 l2 tfe x w).
    destruct (subset_body lib l2 1 tfe [x] w) as [[e | s'] w']; [reflexivity |].
    apply IH.
Qed.

(** A request for a non-empty list is the loop over its single dimensions,
    followed by the failing [return] of line 262. *)
Lemma get_marginal_singles (lib : Lib) (d : Z) (rest : list Z) (w : World) :
  get_marginal lib (d :: rest) w
  = match foldM (subset_body lib (d :: rest) 1)
            (map (fun x => [x]) (d :: rest)) None w with
    | (inl e, w') => (inl e, w')
    | (inr _, w') => (inl (AttributeError "param_dict"), w')
    end.
Proof.
  rewrite <- combinations_1.
  unfold get_marginal. cbn [length seq for_else].
  destruct (foldM (subset_body lib (d :: rest) 1) (combinations (d :: rest) 1) None w)
    as [[e | tfe] w'] eqn:E.
  - apply bind_inl. unfold order_body. apply bind_inl. exact E.
  - apply bind_inl. unfold order_body.
    rewrite (bind_inr _ _ _ _ _ E). reflexivity.
Qed.

(** An index that is not in the memo and that the grid of tree 0 does not
    have stops the loop at the lookup of its midpoints. *)
Lemma subset_body_out_of_range (lib : Lib) (l : list Z) (tfe : option Q) (d : Z)
    (w : World) (m : memo) (mt : list (list Q)) (mids : list (list (list Q))) :
  param_dic (self w) = Some m ->
  lookup [d] m = None ->
  all_midpoints (self w) = Some (mt :: mids) ->
  py_index mt d = None ->
  subset_body lib l 1 tfe [d] w = (inl IndexError, w).
Proof.
  intros Hm Hk Hg Hd.
  assert (Hgather : gather 0 [d] w = (inl IndexError, w)).
  { cbv [gather foldM bind getattr index lift ret].
    rewrite Hg. cbn [of_option py_index Z.leb Z.compare Z.to_nat nth_error].
    rewrite Hd. reflexivity. }
  assert (Ht : tree_body lib l [d] 1 tfe 0 w = (inl IndexError, w)).
  { unfold tree_body.
    unfold bind at 1. unfold getattr at 1. rewrite Hg. cbn [of_option].
    unfold bind at 1. unfold index at 1.
    cbn [lift of_option py_index Z.leb Z.compare Z.to_nat nth_error].
    apply bind_inl. exact Hgather. }
  unfold subset_body. unfold bind at 1. unfold getattr at 1. rewrite Hm. simpl.
  rewrite (has_key_false _ _ Hk).
  unfold bind at 1. unfold getattr at 1. rewrite Hg.
  cbn [of_option length py_range foldM].
  apply bind_inl. exact Ht.
Qed.

(** The request for [pre ++ rest], with [pre] not empty, in terms of the
    request for [pre]. *)
Lemma get_marginal_after (lib : Lib) (p : Z) (pre rest : list Z) (w : World) :
  get_marginal lib ((p :: pre) ++ rest) w
  = match foldM (subset_body lib (p :: pre) 1) (map (fun x => [x]) (p :: pre)) None w with
    | (inl e, w') => (inl e, w')
    | (inr tfe, w') =>
        match foldM (subset_body lib ((p :: pre) ++ rest) 1)
                (map (fun x => [x]) rest) tfe w' with
        | (inl e, w'') => (inl e, w'')
        | (inr _, w'') => (inl (AttributeError "param_dict"), w'')
        end
    end.
Proof.
  change ((p :: pre) ++ rest) with (p :: (pre ++ rest)) at 1.
  rewrite get_marginal_singles.
  change (p :: (pre ++ rest)) with ((p :: pre) ++ rest).
  rewrite map_app, foldM_app.
  rewrite (singles_loop_list lib ((p :: pre) ++ rest) (p :: pre) (p :: pre) None w).
  destruct (foldM (subset_body lib (p :: pre) 1) (map (fun x => [x]) (p :: pre)) None w)
    as [[e | tfe] w']; reflexivity.
Qed.

(** What the loop over the single dimensions can raise: when the running
    statistic never fails, every exception of the loop is one of the
    lookups', none of which is the AttributeError of line 262. *)
Section Failures.

Variable E : exn -> Prop.

Hypothesis E_index : E IndexError.
Hypothesis E_key : E KeyError.
Hypothesis E_unbound : forall n, E (UnboundLocalError n).
Hypothesis E_attr : forall a, a <> "param_dict"%string -> E (AttributeError a).

Lemma fails_ret {A : Type} (a : A) : fails_within E (ret a).
Proof. intros w e w' H. discriminate. Qed.

Lemma fails_bind {A B : Type} (m : M A) (f : A -> M B) :
  fails_within E m -> (forall a, fails_within E (f a)) -> fails_within E (bind m f).
Proof.
  intros Hm Hf w e w'. unfold bind.
  destruct (m w) as [[x | a] w1] eqn:Em.
  - intros H. inversion H; subst. apply (Hm w e w' Em).
  - apply Hf.
Qed.

Lemma fails_lift_option {A : Type} (x : exn) (o : option A) :
  E x -> fails_within E (lift (of_option x o)).
Proof.
  intros Hx w e w'. unfold lift. destruct o; cbn [of_option]; intros H.
  - discriminate.
  - inversion H; subst. exact Hx.
Qed.

Lemma fails_getattr {A : Type} (attr : string) (f : fANOVA -> option A) :
  attr <> "param_dict"%string -> fails_within E (getattr attr f).
Proof.
  intros Ha w e w'. unfold getattr. destruct (f (self w)); cbn [of_option]; intros H.
  - discriminate.
  - inversion H; subst. apply E_attr. exact Ha.
Qed.

Lemma fails_index {A : Type} (l : list A) (i : Z) : fails_within E (index l i).
Proof. unfold index. apply fails_lift_option. exact E_index. Qed.

Lemma fails_setattr (f : fANOVA -> fANOVA) : fails_within E (setattr f).
Proof. intros w e w' H. discriminate. Qed.

Lemma fails_foldM {A S : Type} (body : S -> A -> M S) (xs : list A) :
  (forall s x, fails_within E (body s x)) ->
  forall s, fails_within E (foldM body xs s).
Proof.
  intros Hb. induction xs as [| x xs IH]; intros s; cbn [foldM].
  - apply fails_ret.
  - apply fails_bind; [apply Hb | exact IH].
Qed.

Create HintDb fails_db.
#[local] Hint Resolve fails_ret fails_index fails_setattr E_index E_key E_unbound
  : fails_db.

Ltac fails_step :=
  first [ apply fails_bind; [| intros ?]
        | apply fails_getattr; discriminate
        | apply fails_lift_option
        | apply fails_foldM; intros ? ?
        | solve [auto with fails_db] ].

Lemma fails_predict (s : list (option Q)) : fails_within E (predict s).
Proof.
  unfold predict. apply fails_bind; [apply fails_getattr; discriminate |].
  intros forest w e w' H. discriminate.
Qed.

Lemma fails_memo_new (k : list Z) : fails_within E (memo_new k).
Proof. unfold memo_new. repeat fails_step. Qed.

Lemma fails_memo_set_Name (k : list Z) (n : string) : fails_within E (memo_set_Name k n).
Proof. unfold memo_set_Name. repeat fails_step. Qed.

Lemma fails_memo_set_MVC (k : list Z) (v : Q) : fails_within E (memo_set_MVC k v).
Proof. unfold memo_set_MVC. repeat fails_step. Qed.

Lemma fails_memo_get_MVC (k : list Z) : fails_within E (memo_get_MVC k).
Proof. unfold memo_get_MVC. repeat fails_step. Qed.

Lemma fails_fix_sample (dim_helper : list Z) (points : list Q) (s : list (option Q)) :
  fails_within E (fix_sample dim_helper points s).
Proof. unfold fix_sample. repeat fails_step. Qed.

Lemma fails_gather (tree : Z) (dimensions : list Z) :
  fails_within E (gather tree dimensions).
Proof.
  unfold gather. apply fails_foldM. intros [[cm sz] dh] dim. repeat fails_step.
Qed.

Variable lib : Lib.

Hypothesis push_total : forall x s, exists v, push_variance lib x s = inr v.

Lemma fails_single (dimensions : list Z) (tree dim i : Z) (marg : Q)
    (sample' : list (option Q)) (st : point_state) :
  fails_within E (single lib dimensions tree dim i marg sample' st).
Proof.
  unfold single.
  do 4 (apply fails_bind; [repeat fails_step | intros ?]).
  apply fails_bind.
  - intros w e w' H. unfold lift in H.
    destruct (push_total marg a2) as [v Hv]. rewrite Hv in H. discriminate.
  - intros v. cbv zeta.
    apply fails_bind; [apply fails_memo_new | intros _].
    apply fails_bind; [repeat fails_step | intros params].
    apply fails_bind; [repeat fails_step | intros hp].
    apply fails_bind; [apply fails_memo_set_Name | intros _].
    apply fails_bind; [apply fails_memo_set_MVC | intros _].
    apply fails_ret.
Qed.

Lemma fails_point_single (dim_list : list Z) (d : Z) (tree : Z)
    (dim_helper : list Z) (interval_sizes : list (list Q))
    (st : point_state) (ip : Z * list Q) :
  fails_within E (point lib dim_list [d] 1 tree dim_helper interval_sizes st ip).
Proof.
  unfold point. destruct ip as [i points].
  apply fails_bind; [apply fails_fix_sample | intros s].
  apply fails_bind; [apply fails_predict | intros pred].
  apply fails_bind; [apply fails_index | intros marg].
  cbn [length Nat.eqb].
  apply fails_bind; [apply fails_lift_option; apply E_unbound | intros dim].
  apply fails_single.
Qed.

Lemma fails_tree_body_single (dim_list : list Z) (d : Z) (tfe : option Q) (tree : Z) :
  fails_within E (tree_body lib dim_list [d] 1 tfe tree).
Proof.
  unfold tree_body.
  apply fails_bind; [apply fails_getattr; discriminate | intros mids].
  apply fails_bind; [apply fails_index | intros mt].
  apply fails_bind; [apply fails_gather | intros [[cm sz] dh]].
  apply fails_bind; [| intros st; apply fails_ret].
  apply fails_foldM. intros st ip. apply fails_point_single.
Qed.

Lemma fails_subset_body_single (dim_list : list Z) (tfe : option Q) (d : Z) :
  fails_within E (subset_body lib dim_list 1 tfe [d]).
Proof.
  unfold subset_body.
  apply fails_bind; [apply fails_getattr; discriminate | intros m].
  destruct (has_key m [d]).
  - apply fails_bind; [apply fails_memo_get_MVC | intros _; apply fails_ret].
  - apply fails_bind; [apply fails_getattr; discriminate | intros mids].
    apply fails_foldM. intros s t. apply fails_tree_body_single.
Qed.

Lemma fails_singles_loop (dim_list l : list Z) :
  forall tfe, fails_within E (foldM (subset_body lib dim_list 1) (map (fun x => [x]) l) tfe).
Proof.
  induction l as [| x l IH]; intros tfe; cbn [map foldM].
  - apply fails_ret.
  - apply fails_bind; [apply fails_subset_body_single | exact IH].
Qed.

End Failures.

(** A request that ends at line 262 has got through all its indices. *)
Lemma get_marginal_at_return (lib : Lib) (p : Z) (pre : list Z) (w : World) :
  (forall x s, exists v, push_variance lib x s = inr v) ->
  fst (get_marginal lib (p :: pre) w) = inl (AttributeError "param_dict") ->
  exists tfe,
    foldM (subset_body lib (p :: pre) 1) (map (fun x => [x]) (p :: pre)) None w
    = (inr tfe, snd (get_marginal lib (p :: pre) w)).
Proof.
  intros Hpv. rewrite get_marginal_singles.
  destruct (foldM (subset_body lib (p :: pre) 1) (map (fun x => [x]) (p :: pre)) None w)
    as [[e | tfe] w1] eqn:Ef; cbn [fst snd]; intros H.
  - exfalso.
    apply (fails_singles_loop (fun e => e <> AttributeError "param_dict")) in Ef.
    + apply Ef. congruence.
    + discriminate.
    + discriminate.
    + intros n. discriminate.
    + intros a Ha Heq. apply Ha. congruence.
    + exact Hpv.
  - exists tfe. reflexivity.
Qed.

(** C5, as the code has it.  The engine does not validate the subset.  A
    request for the empty subset fails before any query and leaves the
    engine as it was; so does a request whose first index, not yet in the
    memo, is outside the grid of the first tree.  When such an index comes
    after indices [pre] that the request gets through (the request for
    [pre] ends at line 262, the running statistic never failing), the
    request raises IndexError only after it has done to the engine and to
    the forest all that the request for [pre] does, queries included.  A
    repeated index is not rejected: an index whose entry the memo holds
    once the indices before it are done is skipped, and the request is the
    request for the list without it. *)
Theorem invalid_subset_failures :
  forall (lib : Lib) (w : World),
    get_marginal lib [] w = (inl (UnboundLocalError "totalFractionsExplained"), w)
    /\ (forall (d : Z) (rest : list Z) (m : memo) (mt : list (list Q))
               (mids : list (list (list Q))),
          param_dic (self w) = Some m ->
          lookup [d] m = None ->
          all_midpoints (self w) = Some (mt :: mids) ->
          py_index mt d = None ->
          get_marginal lib (d :: rest) w = (inl IndexError, w))
    /\ (forall (pre : list Z) (d : Z) (post : list Z) (m : memo)
               (mt : list (list Q)) (mids : list (list (list Q))),
          (forall x s, exists v, push_variance lib x s = inr v) ->
          fst (get_marginal lib pre w) = inl (AttributeError "param_dict") ->
          param_dic (self (snd (get_marginal lib pre w))) = Some m ->
          lookup [d] m = None ->
          all_midpoints (self (snd (get_marginal lib pre w))) = Some (mt :: mids) ->
          py_index mt d = None ->
          get_marginal lib (pre ++ d :: post) w
          = (inl IndexError, snd (get_marginal lib pre w)))
    /\ (forall (pre : list Z) (d : Z) (post : list Z) (e : entry) (v : Q),
          pre <> [] ->
          holds [d] e (snd (get_marginal lib pre w)) ->
          MarginalVarianceContribution e = Some v ->
          get_marginal lib (pre ++ d :: post) w = get_marginal lib (pre ++ post) w).
Proof.
  intros lib w. split; [apply get_marginal_empty |].
  split; [intros d rest m mt mids; apply get_marginal_leading_index |].
  split.
  - intros [| p pre] d post m mt mids Hpv Hret; [discriminate |].
    destruct (get_marginal_at_return lib p pre w Hpv Hret) as [tfe Hf].
    intros Hm Hl Hg Hd.
    rewrite (get_marginal_after lib p pre (d :: post) w). rewrite Hf.
    cbn [map foldM]. unfold bind.
    rewrite (subset_body_out_of_range lib _ tfe d _ m mt mids Hm Hl Hg Hd).
    reflexivity.
  - intros [| p pre] d post e v Hne; [contradiction |].
    rewrite (get_marginal_after lib p pre (d :: post) w).
    rewrite (get_marginal_after lib p pre post w).
    rewrite (get_marginal_singles lib p pre w).
    destruct (foldM (subset_body lib (p :: pre) 1) (map (fun x => [x]) (p :: pre)) None w)
      as [[x | tfe] w1]; cbn [fst snd]; intros (m & Hm & Hl) Hv; [reflexivity |].
    cbn [map foldM]. unfold bind at 1.
    rewrite (subset_body_hit lib _ 1 tfe [d] w1 m e v Hm Hl Hv).
    rewrite (singles_loop_list lib ((p :: pre) ++ d :: post) ((p :: pre) ++ post)
               post tfe w1).
    reflexivity.
Qed.

Lemma invalid_subset_failures_witness :
  get_marginal Small.lib [] Small.world
    = (inl (UnboundLocalError "totalFractionsExplained"), Small.world)
  /\ get_marginal Small.lib [5; 0] Small.world = (inl IndexError, Small.world)
  /\ get_marginal Small.lib [0; 5; 1] Small.world = (inl IndexError, Small.warm)
  /\ get_marginal Small.lib [0; 0; 1] Small.world = get_marginal Small.lib [0; 1] Small.world.
Proof.
  destruct (invalid_subset_failures Small.lib Small.world) as (H0 & H1 & H2 & H3).
  split; [exact H0 |].
  split; [eapply H1; reflexivity |].
  split.
  - refine (H2 [0] 5 [1] _ _ _ _ eq_refl eq_refl eq_refl eq_refl eq_refl).
    intros x s. eexists. reflexivity.
  - eapply (H3 [0] 0 [1]);
      [discriminate | eexists; split; reflexivity | reflexivity].
Defined.

(** C5 fails as stated: with the out-of-range index 5 after the index 0 the
    forest is queried for dimension 0 before the request fails, and a
    duplicated index is not rejected: the request queries the forest and
    ends as the request for (0) does. *)
Lemma invalid_subsets_reach_the_forest :
  fst (get_marginal Small.lib [0; 5] Small.world) = inl IndexError
  /\ length (queries (snd (get_marginal Small.lib [0; 5] Small.world))) = 1%nat
  /\ fst (get_marginal Small.lib [0; 0] Small.world) = inl (AttributeError "param_dict")
  /\ length (queries (snd (get_marginal Small.lib [0; 0] Small.world))) = 1%nat
  /\ get_marginal Small.lib [0; 0] Small.world = get_marginal Small.lib [0] Small.world.
Proof. repeat split. Qed.
